(** * DataAnalysisTool: the cleaning and summary pipeline of [main.py]

    The program is a PyQt5 shell around a pandas [DataFrame].  Its decision
    logic is in five methods of [DataAnalysisTool]:
    [identify_field_types], [handle_missing_values], [remove_duplicates],
    [detect_outliers] and [perform_statistical_analysis].  Each of them is a
    few lines of control flow around pandas calls, so the embedding has two
    layers:

    - [Float64] and [Pandas]: the library operations the methods call
      ([fillna], [mean], [median], [mode], [std], [nunique],
      [drop_duplicates], boolean-mask selection, [describe]), written out
      from their documented behaviour;
    - [DataAnalysisTool]: the methods themselves, line by line.  The answers
      of the modal dialogs ([QInputDialog]) are arguments; [None] is a
      cancelled dialog.

    Modelling choices.
    - A float64 is a rational or one of the IEEE special values (+inf,
      -inf, NaN).  Addition, subtraction, multiplication, division and the
      conversion of an integer round their exact result to the nearest
      binary64 number, ties to even, with overflow to an infinity and
      underflow through the subnormal numbers to zero ([round]).  Negation,
      absolute value and comparisons are exact.  The two zeros are one
      value: the divisors of the program (a count, 2, a standard deviation)
      are never a negative zero.
    - The square root is a parameter ([sqrt_f]) of the statistics, so that
      what is proved of them holds for every root; binary64's is
      [sqrt_nearest].
    - A sum adds the values in row order, starting from 0.  That is the
      order of numpy for fewer than 8 values, and of bottleneck; for more
      values numpy adds in blocks, which rounds in another order.
      [quantile] interpolates as numpy does from version 1.22 on.
    - A column is an int64, float64 or object column (what [read_csv]
      produces for numbers and text).  Object cells are strings or null;
      the nulls of a float64 column are its NaN cells, and an int64 column
      has none.  Column names are taken to be distinct: the loops go over
      the columns by position.
    - [self.data[col].fillna(..., inplace=True)] updates the column of
      [self.data] (pandas without copy-on-write), as the program expects.
    - Python's [float(text)] is a parameter ([py_float]). *)

From Stdlib Require Import String Ascii Bool Arith ZArith QArith Qabs Qround List Lia Lqa.
Import ListNotations.

Set Implicit Arguments.
Local Open Scope nat_scope.

(* ================================================================== *)
(** * Part I: the embedding *)
(* ================================================================== *)

(** ** float64 values *)

Module Float64.

Inductive f64 : Type :=
| Fin (q : Q)
| PInf
| NInf
| NaN.

Definition isnan (x : f64) : bool :=
  match x with NaN => true | _ => false end.

Definition isfinite (x : f64) : bool :=
  match x with Fin _ => true | _ => false end.

(** *** Rounding to binary64

    A finite float64 is [n * 2^k] with [|n| < 2^53] and [-1074 <= k <= 971].
    The result of an operation is the exact result rounded to the nearest
    such number, to the one with an even [n] when two are as near; a result
    that rounds to [2^1024] or beyond is an infinity, and one below half of
    [2^-1074] is zero. *)

(** [floor (log2 (a / b))]. *)
Definition floor_log2 (a b : positive) : Z :=
  let d := (Z.log2 (Zpos a) - Z.log2 (Zpos b))%Z in
  if (Zpos b * 2 ^ Z.max d 0 <=? Zpos a * 2 ^ Z.max (- d) 0)%Z
  then d else (d - 1)%Z.

(** The integer nearest to [x / y], the even one of two ([0 < y]). *)
Definition nearest_even (x y : Z) : Z :=
  let fl := (x / y)%Z in
  match (2 * (x mod y) ?= y)%Z with
  | Lt => fl
  | Gt => (fl + 1)%Z
  | Eq => if Z.even fl then fl else (fl + 1)%Z
  end.

(** [n * 2^k], in lowest terms. *)
Definition scaled (n k : Z) : Q :=
  Qred ((n * 2 ^ Z.max k 0)%Z # Z.to_pos (2 ^ Z.max (- k) 0)).

(** [a / b] rounded: [2^k] is the spacing of the float64 numbers around it. *)
Definition round_pos (a b : positive) : f64 :=
  let k := Z.max (floor_log2 a b - 52) (-1074) in
  let n := nearest_even (Zpos a * 2 ^ Z.max (- k) 0)
                        (Zpos b * 2 ^ Z.max k 0) in
  if (2 ^ 1024 <=? n * 2 ^ k)%Z then PInf else Fin (scaled n k).

Definition fopp (x : f64) : f64 :=
  match x with
  | Fin q => Fin (- q)
  | PInf => NInf
  | NInf => PInf
  | NaN => NaN
  end.

Definition round (q : Q) : f64 :=
  match Qnum q with
  | Z0 => Fin 0
  | Zpos a => round_pos a (Qden q)
  | Zneg a => fopp (round_pos a (Qden q))
  end.

Arguments round : simpl never.


(** int64 to float64, as in arithmetic between an int64 and a float64
    Series; and a count as a float64. *)
Definition of_int (z : Z) : f64 := round (inject_Z z).

Definition of_nat (n : nat) : f64 := of_int (Z.of_nat n).

Definition fabs (x : f64) : f64 :=
  match x with
  | Fin q => Fin (Qabs q)
  | PInf | NInf => PInf
  | NaN => NaN
  end.

Definition fadd (x y : f64) : f64 :=
  match x, y with
  | NaN, _ | _, NaN => NaN
  | Fin a, Fin b => round (a + b)
  | PInf, NInf | NInf, PInf => NaN
  | PInf, _ | _, PInf => PInf
  | NInf, _ | _, NInf => NInf
  end.

Definition fsub (x y : f64) : f64 := fadd x (fopp y).

(** An infinity times or divided by a finite value of the given sign. *)
Definition scale_inf (i : f64) (s : comparison) (at_zero : f64) : f64 :=
  match s with
  | Eq => at_zero
  | Gt => i
  | Lt => fopp i
  end.

Definition fmul (x y : f64) : f64 :=
  match x, y with
  | NaN, _ | _, NaN => NaN
  | Fin a, Fin b => round (a * b)
  | Fin a, i => scale_inf i (a ?= 0)%Q NaN
  | i, Fin b => scale_inf i (b ?= 0)%Q NaN
  | PInf, PInf | NInf, NInf => PInf
  | PInf, NInf | NInf, PInf => NInf
  end.

(** IEEE division: [x / 0] is an infinity of the sign of [x], [0 / 0] and
    [inf / inf] are NaN. *)
Definition fdiv (x y : f64) : f64 :=
  match x, y with
  | NaN, _ | _, NaN => NaN
  | Fin a, Fin b =>
      if Qeq_bool b 0 then scale_inf PInf (a ?= 0)%Q NaN else round (a / b)
  | Fin _, _ => Fin 0
  | i, Fin b => scale_inf i (b ?= 0)%Q i
  | _, _ => NaN
  end.

Section Sqrt.
Variable sqrt_f : Q -> Q.

Definition fsqrt (x : f64) : f64 :=
  match x with
  | Fin q => if Qle_bool 0 q then Fin (sqrt_f q) else NaN
  | PInf => PInf
  | NInf | NaN => NaN
  end.

End Sqrt.

(** Ordered comparison; [None] when an operand is NaN. *)
Definition fcmp (x y : f64) : option comparison :=
  match x, y with
  | NaN, _ | _, NaN => None
  | Fin a, Fin b => Some (a ?= b)%Q
  | PInf, PInf | NInf, NInf => Some Eq
  | PInf, _ | _, NInf => Some Gt
  | NInf, _ | _, PInf => Some Lt
  end.

(** [x > y], [x <= y]: false as soon as an operand is NaN. *)
Definition fgt (x y : f64) : bool :=
  match fcmp x y with Some Gt => true | _ => false end.

Definition fle (x y : f64) : bool :=
  match fcmp x y with Some Lt | Some Eq => true | _ => false end.

(** Equality as pandas' hash tables see it (value counts, duplicates):
    equal numbers are one key, and NaN is one key. *)
Definition same_key (x y : f64) : bool :=
  match x, y with
  | NaN, NaN => true
  | _, _ => match fcmp x y with Some Eq => true | _ => false end
  end.

End Float64.

(** ** Python exceptions *)

Inductive exn : Type := ValueError | IndexError | KeyError | TypeError.

Inductive result (A : Type) : Type :=
| Ok (a : A)
| Raise (e : exn).

Arguments Ok {A} a.
Arguments Raise {A} e.

(** ** The pandas operations the program calls *)

Module Pandas.
Import Float64.

(** *** Reductions of a float64 Series (all with [skipna=True]) *)

Definition dropna (xs : list f64) : list f64 :=
  filter (fun x => negb (isnan x)) xs.

Definition count (xs : list f64) : nat := length (dropna xs).

(** The values added in row order. *)
Definition fsum (xs : list f64) : f64 := fold_left fadd xs (Fin 0).

Definition sum (xs : list f64) : f64 := fsum (dropna xs).

Definition mean (xs : list f64) : f64 :=
  if count xs =? 0 then NaN else fdiv (sum xs) (of_nat (count xs)).

Definition sqr (x : f64) : f64 := fmul x x.

(** [Series.var()], [ddof = 1]: the squared deviations from the mean, summed
    and divided by [count - 1]; NaN when [count <= ddof]. *)
Definition var (xs : list f64) : f64 :=
  let n := count xs in
  if n <=? 1 then NaN
  else
    let avg := fdiv (sum xs) (of_nat n) in
    fdiv (fsum (map (fun x => sqr (fsub avg x)) (dropna xs))) (of_nat (n - 1)).

Definition std (sqrt_f : Q -> Q) (xs : list f64) : f64 :=
  fsqrt sqrt_f (var xs).

Fixpoint insert (x : f64) (l : list f64) : list f64 :=
  match l with
  | [] => [x]
  | y :: l' => if fle x y then x :: l else y :: insert x l'
  end.

Definition sort (l : list f64) : list f64 := fold_right insert [] l.

Definition median (xs : list f64) : f64 :=
  let vs := sort (dropna xs) in
  let n := length vs in
  if n =? 0 then NaN
  else if Nat.odd n then nth (n / 2) vs NaN
  else fdiv (fadd (nth (n / 2 - 1) vs NaN) (nth (n / 2) vs NaN)) (Fin 2).

Definition min (xs : list f64) : f64 := hd NaN (sort (dropna xs)).

Definition max (xs : list f64) : f64 := last (sort (dropna xs)) NaN.

(** numpy's linear interpolation between [a] and [b] at [t]: from [a]
    below one half, back from [b] from one half on. *)
Definition lerp (a b : f64) (t : Q) : f64 :=
  let diff_b_a := fsub b a in
  if Qle_bool (1 # 2) t
  then fsub b (fmul diff_b_a (Fin (1 - t)))
  else fadd a (fmul diff_b_a (Fin t)).

(** [Series.quantile(p)], linear interpolation between the two ranks around
    [(n - 1) * p]; at the last rank and beyond both are the last value. *)
Definition quantile (p : Q) (xs : list f64) : f64 :=
  let vs := sort (dropna xs) in
  match vs with
  | [] => NaN
  | _ =>
      let n := length vs in
      let h := (inject_Z (Z.of_nat (n - 1)) * p)%Q in
      if Qle_bool (inject_Z (Z.of_nat (n - 1))) h
      then lerp (last vs NaN) (last vs NaN) (h + 1)
      else
        let lo := Z.to_nat (Qfloor h) in
        lerp (nth lo vs NaN) (nth (S lo) vs NaN) (h - inject_Z (Qfloor h))
  end.

(** The distinct values of a list, each at its first occurrence. *)
Fixpoint unique_by {A : Type} (eqb : A -> A -> bool) (l : list A) : list A :=
  match l with
  | [] => []
  | x :: r => x :: filter (fun y => negb (eqb x y)) (unique_by eqb r)
  end.

Definition occurrences (x : f64) (vs : list f64) : nat :=
  length (filter (same_key x) vs).

Definition max_occurrences (vs : list f64) : nat :=
  fold_right Nat.max 0 (map (fun x => occurrences x vs) vs).

(** [Series.mode()], [dropna = True]: every value whose number of
    occurrences is maximal, and the result is sorted ascending. *)
Definition mode (xs : list f64) : list f64 :=
  let vs := dropna xs in
  sort (filter (fun x => occurrences x vs =? max_occurrences vs)
               (unique_by same_key vs)).

(** [Series.fillna(value)] on a float64 and on an object Series. *)
Definition fillna (value : f64) (xs : list f64) : list f64 :=
  map (fun x => if isnan x then value else x) xs.

Definition fillna_obj (value : string) (os : list (option string))
  : list (option string) :=
  map (fun o => match o with None => Some value | Some _ => o end) os.

Definition dropna_obj (os : list (option string)) : list string :=
  flat_map (fun o => match o with Some s => [s] | None => [] end) os.

(** [Series.nunique()]: the number of distinct non-null values. *)
Definition nunique_obj (os : list (option string)) : nat :=
  length (unique_by String.eqb (dropna_obj os)).


(** *** Series and DataFrame *)

Inductive dtype : Type := object | int64 | float64 | datetime64_ns | bool_.

Inductive Series : Type :=
| Int64Series (zs : list Z)
| Float64Series (xs : list f64)
| ObjectSeries (os : list (option string)).

Definition dtype_of (s : Series) : dtype :=
  match s with
  | Int64Series _ => int64
  | Float64Series _ => float64
  | ObjectSeries _ => object
  end.

Definition size (s : Series) : nat :=
  match s with
  | Int64Series zs => length zs
  | Float64Series xs => length xs
  | ObjectSeries os => length os
  end.

(** The values of a numeric Series as float64 (int64 is upcast in
    arithmetic); [None] for an object Series. *)
Definition to_float (s : Series) : option (list f64) :=
  match s with
  | Int64Series zs => Some (map of_int zs)
  | Float64Series xs => Some xs
  | ObjectSeries _ => None
  end.

(** A frame: the row labels and the named columns, in order.  In a frame
    that the loader built every column is as long as the index. *)
Record DataFrame : Type := {
  index : list Z;
  columns : list (string * Series)
}.

Definition well_formed (df : DataFrame) : Prop :=
  Forall (fun nc => size (snd nc) = length (index df)) (columns df).

(** [DataFrame.empty]: an axis of length 0. *)
Definition empty (df : DataFrame) : bool :=
  (length (index df) =? 0) || (length (columns df) =? 0).

Fixpoint lookup (name : string) (cols : list (string * Series))
  : option Series :=
  match cols with
  | [] => None
  | (n, s) :: rest => if String.eqb n name then Some s else lookup name rest
  end.

(** *** Boolean-mask selection, [df[mask]] *)

Fixpoint select {A : Type} (mask : list bool) (l : list A) : list A :=
  match mask, l with
  | b :: mask', x :: l' =>
      if b then x :: select mask' l' else select mask' l'
  | _, _ => []
  end.

Definition select_series (mask : list bool) (s : Series) : Series :=
  match s with
  | Int64Series zs => Int64Series (select mask zs)
  | Float64Series xs => Float64Series (select mask xs)
  | ObjectSeries os => ObjectSeries (select mask os)
  end.

Definition getitem_mask (mask : list bool) (df : DataFrame) : DataFrame :=
  {| index := select mask (index df);
     columns := map (fun nc => (fst nc, select_series mask (snd nc)))
                    (columns df) |}.

(** *** Rows and [drop_duplicates] *)

Inductive cell : Type :=
| IntCell (z : Z)
| FloatCell (x : f64)
| ObjCell (o : option string).

Definition cells (s : Series) : list cell :=
  match s with
  | Int64Series zs => map IntCell zs
  | Float64Series xs => map FloatCell xs
  | ObjectSeries os => map ObjCell os
  end.

(** Two cells are the same key when their values are equal; two nulls are. *)
Definition cell_eqb (a b : cell) : bool :=
  match a, b with
  | IntCell x, IntCell y => Z.eqb x y
  | FloatCell x, FloatCell y => same_key x y
  | ObjCell (Some x), ObjCell (Some y) => String.eqb x y
  | ObjCell None, ObjCell None => true
  | _, _ => false
  end.

(** A row holds one cell per column; [None] only where a column is shorter
    than the index, which a well-formed frame never has. *)
Definition row : Type := list (option cell).

Fixpoint rows_of (n : nat) (cols : list (list cell)) : list row :=
  match n with
  | 0 => []
  | S n' => map (@hd_error cell) cols :: rows_of n' (map (@tl cell) cols)
  end.

Definition rows (df : DataFrame) : list row :=
  rows_of (length (index df)) (map (fun nc => cells (snd nc)) (columns df)).

Fixpoint row_eqb (r1 r2 : row) : bool :=
  match r1, r2 with
  | [], [] => true
  | Some a :: r1', Some b :: r2' => cell_eqb a b && row_eqb r1' r2'
  | None :: r1', None :: r2' => row_eqb r1' r2'
  | _, _ => false
  end.

(** [keep='first']: a row is a duplicate when an equal row comes before it. *)
Fixpoint seen_before (seen : list row) (rs : list row) : list bool :=
  match rs with
  | [] => []
  | r :: rs' => existsb (row_eqb r) seen :: seen_before (r :: seen) rs'
  end.

(** [keep='last']: a row is a duplicate when an equal row comes after it. *)
Fixpoint seen_after (rs : list row) : list bool :=
  match rs with
  | [] => []
  | r :: rs' => existsb (row_eqb r) rs' :: seen_after rs'
  end.

(** The [keep] argument of [duplicated] and [drop_duplicates]:
    ['first'] (the default), ['last'] or [False]. *)
Inductive keep_arg : Type := keep_first | keep_last | keep_False.

Definition duplicated (keep : keep_arg) (df : DataFrame) : list bool :=
  match keep with
  | keep_first => seen_before [] (rows df)
  | keep_last => seen_after (rows df)
  | keep_False =>
      map (fun ab => fst ab || snd ab)
          (combine (seen_before [] (rows df)) (seen_after (rows df)))
  end.

(** [DataFrame.drop_duplicates(keep=...)]: an empty frame is returned as it
    is, otherwise the rows that are not marked are selected. *)
Definition drop_duplicates (keep : keep_arg) (df : DataFrame) : DataFrame :=
  if empty df then df
  else getitem_mask (map negb (duplicated keep df)) df.

(** [Series.nunique()] by dtype. *)
Definition nunique (s : Series) : nat :=
  match s with
  | Int64Series zs => length (unique_by Z.eqb zs)
  | Float64Series xs => length (unique_by same_key (dropna xs))
  | ObjectSeries os => nunique_obj os
  end.

(** [Series.iloc[0]]. *)
Definition iloc0 (l : list f64) : result f64 :=
  match l with
  | [] => Raise IndexError
  | x :: _ => Ok x
  end.

(** [fillna] with a float on a numeric Series.  An int64 Series holds no
    null, so it stays as it is.  The program never calls this on an object
    Series. *)
Definition fillna_numeric (value : f64) (s : Series) : Series :=
  match s with
  | Float64Series xs => Float64Series (fillna value xs)
  | Int64Series _ | ObjectSeries _ => s
  end.

(** *** [DataFrame.describe()] with its default arguments *)

Record NumericSummary : Type := {
  n_count : nat;
  n_mean : f64;
  n_std : f64;
  n_min : f64;
  n_25 : f64;
  n_50 : f64;
  n_75 : f64;
  n_max : f64
}.

(** [top] and [freq] are missing when the column has no value. *)
Record ObjectSummary : Type := {
  o_count : nat;
  o_unique : nat;
  o_top : option string;
  o_freq : option nat
}.

Inductive summary : Type :=
| Numeric (s : NumericSummary)
| Categorical (s : ObjectSummary).

Definition describe_numeric (sqrt_f : Q -> Q) (xs : list f64)
  : NumericSummary :=
  {| n_count := count xs;
     n_mean := mean xs;
     n_std := std sqrt_f xs;
     n_min := min xs;
     n_25 := quantile (1 # 4) xs;
     n_50 := quantile (1 # 2) xs;
     n_75 := quantile (3 # 4) xs;
     n_max := max xs |}.

Definition occurrences_obj (x : string) (vs : list string) : nat :=
  length (filter (String.eqb x) vs).

(** The head of [value_counts()]: a most frequent value and its count.
    Among equally frequent values the earliest is taken here; pandas does
    not fix that order and no statement below depends on it. *)
Fixpoint most_frequent (all vs : list string) : option (string * nat) :=
  match vs with
  | [] => None
  | x :: r =>
      match most_frequent all r with
      | None => Some (x, occurrences_obj x all)
      | Some (y, n) =>
          if n <=? occurrences_obj x all
          then Some (x, occurrences_obj x all) else Some (y, n)
      end
  end.

Definition describe_object (os : list (option string)) : ObjectSummary :=
  let vs := dropna_obj os in
  {| o_count := length vs;
     o_unique := nunique_obj os;
     o_top := option_map fst (most_frequent vs vs);
     o_freq := option_map snd (most_frequent vs vs) |}.

Definition describe_1d (sqrt_f : Q -> Q) (s : Series) : summary :=
  match s with
  | Int64Series zs => Numeric (describe_numeric sqrt_f (map of_int zs))
  | Float64Series xs => Numeric (describe_numeric sqrt_f xs)
  | ObjectSeries os => Categorical (describe_object os)
  end.

Definition is_number (s : Series) : bool :=
  match s with
  | Int64Series _ | Float64Series _ => true
  | ObjectSeries _ => false
  end.

(** [select_dtypes(include=[np.number])]. *)
Definition select_dtypes_number (df : DataFrame) : list (string * Series) :=
  filter (fun nc => is_number (snd nc)) (columns df).

(** [describe()]: a frame without columns is refused; when some columns are
    numeric only those are described; otherwise every column is.  The
    result has one column of statistics per described column. *)
Definition describe (sqrt_f : Q -> Q) (df : DataFrame)
  : result (list (string * summary)) :=
  if length (columns df) =? 0 then Raise ValueError
  else
    let data := select_dtypes_number df in
    let data := if length data =? 0 then columns df else data in
    Ok (map (fun nc => (fst nc, describe_1d sqrt_f (snd nc))) data).

End Pandas.

(** ** The methods of [DataAnalysisTool] *)

Module DataAnalysisTool.
Import Float64 Pandas.

(** *** [identify_field_types] *)

Inductive field_type : Type :=
| ft_categorical
| ft_string
| ft_numeric
| ft_datetime.

(** The body of the loop: the label of one column, or no entry for a dtype
    the chain of tests does not name. *)
Definition field_type_of (dtype : dtype) (unique_values : nat)
  : option field_type :=
  match dtype with
  | object =>
      if unique_values <=? 10 then Some ft_categorical else Some ft_string
  | int64 | float64 => Some ft_numeric
  | datetime64_ns => Some ft_datetime
  | bool_ => None
  end.

Definition classify (s : Series) : option field_type :=
  field_type_of (dtype_of s) (nunique s).

(** [field_types], as the list of its items in insertion order. *)
Fixpoint field_types (cols : list (string * Series))
  : list (string * field_type) :=
  match cols with
  | [] => []
  | (column, s) :: rest =>
      match classify s with
      | Some t => (column, t) :: field_types rest
      | None => field_types rest
      end
  end.

Definition identify_field_types (data : option DataFrame)
  : option (list (string * field_type)) :=
  match data with
  | None => None
  | Some df => Some (field_types (columns df))
  end.

(** *** [handle_missing_values] *)

Inductive method_t : Type := Mean | Median | Mode | Custom.

(** [for col in self.data.columns: body], each column updated in place: when
    the body raises, the columns before stay as they were updated, the
    others as they were, and the exception leaves the loop. *)
Fixpoint for_each_column (body : Series -> result Series)
  (cols : list (string * Series)) : list (string * Series) * option exn :=
  match cols with
  | [] => ([], None)
  | (col, s) :: rest =>
      match body s with
      | Raise e => ((col, s) :: rest, Some e)
      | Ok s' =>
          let (rest', raised) := for_each_column body rest in
          ((col, s') :: rest', raised)
      end
  end.

Definition update_columns (body : Series -> result Series) (df : DataFrame)
  : DataFrame * option exn :=
  let (cols, raised) := for_each_column body (columns df) in
  ({| index := index df; columns := cols |}, raised).

(** The loop body of the [else] branch (mean, median, mode). *)
Definition fill_statistic (method : method_t) (s : Series) : result Series :=
  match to_float s with
  | Some xs =>
      match method with
      | Mean => Ok (fillna_numeric (mean xs) s)
      | Median => Ok (fillna_numeric (median xs) s)
      | Mode =>
          match iloc0 (mode xs) with
          | Ok mode_val => Ok (fillna_numeric mode_val s)
          | Raise e => Raise e
          end
      | Custom => Ok s  (* no test of the chain names it *)
      end
  | None => Ok s
  end.

Section HandleMissingValues.

(** Python's [float(text)]: [None] when it raises [ValueError]. *)
Variable py_float : string -> option f64.

(** The loop body of the ['custom'] branch. *)
Definition fill_custom (fill_value : string) (s : Series) : result Series :=
  match s with
  | Int64Series _ | Float64Series _ =>
      match py_float fill_value with
      | Some v => Ok (fillna_numeric v s)
      | None => Raise ValueError
      end
  | ObjectSeries os => Ok (ObjectSeries (fillna_obj fill_value os))
  end.

(** [method] and [fill_value] are the answers of the two dialogs.  The
    result is the frame as the method leaves it and the exception that
    escaped, if any. *)
Definition handle_missing_values (method : option method_t)
  (fill_value : option string) (df : DataFrame) : DataFrame * option exn :=
  match method with
  | Some Custom =>
      match fill_value with
      | Some v => update_columns (fill_custom v) df
      | None => (df, None)
      end
  | Some m => update_columns (fill_statistic m) df
  | None => (df, None)
  end.

End HandleMissingValues.

(** *** [remove_duplicates] *)

Inductive strategy : Type := first | last | all.

(** [strat] is the answer of the dialog.  For ['all'] the call passes no
    [keep], which is then pandas' default ['first']; otherwise [keep=strat]. *)
Definition remove_duplicates (strat : option strategy) (df : DataFrame)
  : DataFrame :=
  match strat with
  | Some all => drop_duplicates keep_first df
  | Some first => drop_duplicates keep_first df
  | Some last => drop_duplicates keep_last df
  | None => df
  end.

(** *** [detect_outliers] *)

Section Statistics.

Variable sqrt_f : Q -> Q.

Definition z_scores (xs : list f64) : list f64 :=
  map (fun x => fdiv (fsub x (mean xs)) (std sqrt_f xs)) xs.

(** [np.abs(z_scores) > threshold]. *)
Definition outlier_mask (threshold : Q) (zs : list f64) : list bool :=
  map (fun z => fgt (fabs z) (Fin threshold)) zs.

(** [column] and [threshold] are the answers of the two dialogs.  The
    result is the frame that is printed, when one is.  The dialog offers
    the numeric columns only; arithmetic on an object column would raise
    [TypeError]. *)
Definition detect_outliers (column : option string) (threshold : option Q)
  (df : DataFrame) : result (option DataFrame) :=
  match column with
  | None => Ok None
  | Some name =>
      match lookup name (columns df) with
      | None => Raise KeyError
      | Some s =>
          match to_float s with
          | None => Raise TypeError
          | Some xs =>
              match threshold with
              | None => Ok None
              | Some t =>
                  Ok (Some (getitem_mask (outlier_mask t (z_scores xs)) df))
              end
          end
      end
  end.

(** *** [perform_statistical_analysis] *)

Definition perform_statistical_analysis (df : DataFrame)
  : result (list (string * summary)) :=
  describe sqrt_f df.

End Statistics.

End DataAnalysisTool.

(** ** Concrete inputs *)

Module Examples.
Import Float64 Pandas DataAnalysisTool.

(** A stand-in for [float(text)] on plain decimal integers, enough to run
    the ['custom'] branch: digits, with an optional leading minus sign. *)
Definition digit_of (c : ascii) : option Z :=
  let n := nat_of_ascii c in
  if (48 <=? n) && (n <=? 57) then Some (Z.of_nat (n - 48)) else None.

Fixpoint digits_value (acc : Z) (s : string) : option Z :=
  match s with
  | EmptyString => Some acc
  | String c rest =>
      match digit_of c with
      | Some d => digits_value (10 * acc + d)%Z rest
      | None => None
      end
  end.

Definition decimal_float (s : string) : option f64 :=
  match s with
  | EmptyString => None
  | String "-"%char (String c rest) =>
      option_map (fun z => of_int (- z)) (digits_value 0 (String c rest))
  | _ => option_map of_int (digits_value 0 s)
  end.


(** A square root rounded up to a multiple of 2^-32. *)
Definition sqrt_up (q : Q) : Q :=
  (inject_Z (Z.sqrt_up (Qceiling (q * inject_Z (2 ^ 64)))) / inject_Z (2 ^ 32))%Q.

Local Open Scope string_scope.

(** The rows [("a",1), ("a",1), ("b",2)]. *)
Definition letters : DataFrame :=
  {| index := [0; 1; 2]%Z;
     columns := [ ("key", ObjectSeries [Some "a"; Some "a"; Some "b"]);
                  ("n", Int64Series [1; 1; 2]%Z) ] |}.

(** A text column with a null, then a numeric column with a null. *)
Definition people : DataFrame :=
  {| index := [0; 1]%Z;
     columns := [ ("name", ObjectSeries [Some "ann"; None]);
                  ("age", Float64Series [Fin 30; NaN]) ] |}.

(** [age] = [10, 20, null, 1000]. *)
Definition ages : DataFrame :=
  {| index := [0; 1; 2; 3]%Z;
     columns := [ ("age", Float64Series [Fin 10; Fin 20; NaN; Fin 1000]) ] |}.

(** Two values tied for the mode, the larger one first. *)
Definition tied : DataFrame :=
  {| index := [0; 1; 2; 3; 4]%Z;
     columns := [ ("x", Float64Series [Fin 3; Fin 3; Fin 1; Fin 1; NaN]) ] |}.

(** The same column, before and after a numeric column without any
    value. *)
Definition tied_then_null : DataFrame :=
  {| index := [0; 1; 2; 3; 4]%Z;
     columns := [ ("x", Float64Series [Fin 3; Fin 3; Fin 1; Fin 1; NaN]);
                  ("a", Float64Series [NaN; NaN; NaN; NaN; NaN]) ] |}.

Definition null_then_tied : DataFrame :=
  {| index := [0; 1; 2; 3; 4]%Z;
     columns := [ ("a", Float64Series [NaN; NaN; NaN; NaN; NaN]);
                  ("x", Float64Series [Fin 3; Fin 3; Fin 1; Fin 1; NaN]) ] |}.

(** A numeric column without any value. *)
Definition all_null : DataFrame :=
  {| index := [0; 1]%Z;
     columns := [ ("x", Float64Series [NaN; NaN]) ] |}.






(** An object column without rows. *)
Definition no_rows : DataFrame :=
  {| index := [];
     columns := [ ("name", ObjectSeries []) ] |}.

End Examples.

(** ** What the properties are stated with *)

Module Properties.
Import Float64 Pandas.

(** Columns no longer than the index: what a selection leaves, whatever
    the frame it started from. *)
Definition bounded (df : DataFrame) : Prop :=
  Forall (fun nc => size (snd nc) <= length (index df)) (columns df).

(** [v] is a mode of the column: a non-null value that occurs at least as
    often as every other. *)
Definition is_mode (v : f64) (xs : list f64) : Prop :=
  In v (dropna xs)
  /\ forall w, In w (dropna xs) ->
       occurrences w (dropna xs) <= occurrences v (dropna xs).



(** The tie rule of the specification: the first value, in row order,
    that occurs as often as any. *)
Definition first_encountered_mode (xs : list f64) : option f64 :=
  let vs := dropna xs in
  find (fun x => occurrences x vs =? max_occurrences vs) vs.

(** Object columns, given by name and cells. *)
Definition object_columns (texts : list (string * list (option string)))
  : list (string * Series) :=
  map (fun c => (fst c, ObjectSeries (snd c))) texts.

End Properties.

(** ** The methods around the pipeline: loading, cleaning, exporting *)

Module Shell.
Import Float64 Pandas DataAnalysisTool.
Local Open Scope string_scope.

(** [str.endswith]. *)
Definition endswith (s suffix : string) : bool :=
  let n := String.length s in
  let m := String.length suffix in
  (m <=? n)%nat && String.eqb (substring (n - m) m s) suffix.

Inductive file_format : Type := csv | xlsx | json.

(** A call into pandas' readers and writers either returns or raises; the
    [except Exception] clauses only use [str(e)]. *)
Inductive outcome (A : Type) : Type :=
| Returned (a : A)
| Failed (message : string).

Arguments Returned {A} a.
Arguments Failed {A} message.

(** What the methods show or write. *)
Inductive event : Type :=
| setPlainText (shown : DataFrame)
| print_field_types (table : list (string * field_type))
| to_file (format : file_format) (path : string)
          (written : list (string * Series))
| information (title text : string)
| critical (title text : string).

Definition head_series (n : nat) (s : Series) : Series :=
  match s with
  | Int64Series zs => Int64Series (firstn n zs)
  | Float64Series xs => Float64Series (firstn n xs)
  | ObjectSeries os => ObjectSeries (firstn n os)
  end.

(** [DataFrame.head(n)]. *)
Definition head (n : nat) (df : DataFrame) : DataFrame :=
  {| index := firstn n (index df);
     columns := map (fun nc => (fst nc, head_series n (snd nc)))
                    (columns df) |}.

(** *** [load_data] *)

(** The frame a reader returned.  In a [Table] the cells of an object
    column are strings or null.  [read_json] on nested records gives object
    cells that are lists or dicts: a [Nested] frame, of which [printed] is
    the frame with each such cell as its text, which is how it prints.
    [nunique()] raises [TypeError] on a column of such cells, so
    [identify_field_types] raises on a [Nested] frame, with [message]. *)
Inductive loaded : Type :=
| Table (df : DataFrame)
| Nested (printed : DataFrame) (message : string).

Definition printed_frame (l : loaded) : DataFrame :=
  match l with
  | Table df => df
  | Nested printed _ => printed
  end.

Section Loading.

(** [pd.read_csv], [pd.read_excel], [pd.read_json]. *)
Variable read : file_format -> string -> outcome loaded.

(** The [if]/[elif] chain on the extension: the frame [self.data] is
    bound to afterwards, or the exception of the reader. *)
Definition read_by_extension (file_path : string) (data : option loaded)
  : outcome (option loaded) :=
  let assign (r : outcome loaded) :=
    match r with
    | Returned l => Returned (Some l)
    | Failed message => Failed message
    end in
  if endswith file_path ".csv" then assign (read csv file_path)
  else if endswith file_path ".xlsx" then assign (read xlsx file_path)
  else if endswith file_path ".json" then assign (read json file_path)
  else Returned data.

(** [file_path] is the answer of the file dialog (empty when cancelled),
    [data] is [self.data] before the call.  The result is [self.data]
    after the call and what was shown.  The [try] block covers the chain,
    the preview and [identify_field_types]: [self.data] is assigned in the
    chain, so an exception after it is reported with the new frame already
    in [self.data].  With [self.data] still [None] after the chain,
    [self.data.head] raises [AttributeError]. *)
Definition load_data (file_path : string) (data : option loaded)
  : option loaded * list event :=
  if String.eqb file_path "" then (data, [])
  else
    match read_by_extension file_path data with
    | Failed message =>
        (data, [critical "Error" ("Failed to load data: " ++ message)])
    | Returned None =>
        (None,
         [critical "Error"
            ("Failed to load data: "
             ++ "'NoneType' object has no attribute 'head'")])
    | Returned (Some (Table df)) =>
        (Some (Table df),
         [setPlainText (head 10 df);
          print_field_types (field_types (columns df))])
    | Returned (Some (Nested printed message)) =>
        (Some (Nested printed message),
         [setPlainText (head 10 printed);
          critical "Error" ("Failed to load data: " ++ message)])
    end.

End Loading.

(** *** [export_data] *)

Section Exporting.

(** [to_csv] and [to_excel] with [index=False]: the columns are written,
    the index is not.  [Some message] is an exception. *)
Variable write :
  file_format -> string -> list (string * Series) -> option string.

Definition export_data (file_path : string) (data : option DataFrame)
  : list event :=
  match data with
  | None => []
  | Some df =>
      if String.eqb file_path "" then []
      else
        let done := information "Success" "Data exported successfully!" in
        let save (format : file_format) :=
          to_file format file_path (columns df)
          :: match write format file_path (columns df) with
             | None => [done]
             | Some message =>
                 [critical "Error" ("Failed to export data: " ++ message)]
             end in
        if endswith file_path ".csv" then save csv
        else if endswith file_path ".xlsx" then save xlsx
        else [done]
  end.

End Exporting.

(** *** [clean_data] *)

(** The answers of the five dialogs of a cleaning run. *)
Record answers : Type := {
  method : option method_t;
  fill_value : option string;
  strat : option strategy;
  column : option string;
  threshold : option Q
}.

(** [self.data] after the run, the outliers that were printed, and the
    exception that escaped. *)
Record cleaned : Type := {
  data_after : option DataFrame;
  outliers : option DataFrame;
  raised : option exn
}.

Section Cleaning.

Variable py_float : string -> option f64.
Variable sqrt_f : Q -> Q.

(** The three stages in order; an exception of a stage leaves the method,
    so the stages after it do not run. *)
Definition clean_data (a : answers) (data : option DataFrame) : cleaned :=
  match data with
  | None => {| data_after := None; outliers := None; raised := None |}
  | Some df =>
      match handle_missing_values py_float (method a) (fill_value a) df with
      | (filled, Some e) =>
          {| data_after := Some filled; outliers := None; raised := Some e |}
      | (filled, None) =>
          let deduplicated := remove_duplicates (strat a) filled in
          match detect_outliers sqrt_f (column a) (threshold a)
                  deduplicated with
          | Ok printed =>
              {| data_after := Some deduplicated;
                 outliers := printed;
                 raised := None |}
          | Raise e =>
              {| data_after := Some deduplicated;
                 outliers := None;
                 raised := Some e |}
          end
      end
  end.

End Cleaning.

End Shell.

(** ** What the further properties are stated with *)

Module MoreProperties.
Import Float64 Pandas.

(** [l1] is [l2] with some elements left out, in the same order. *)
Inductive subseq {A : Type} : list A -> list A -> Prop :=
| subseq_nil : subseq [] []
| subseq_skip (x : A) (l1 l2 : list A) :
    subseq l1 l2 -> subseq l1 (x :: l2)
| subseq_keep (x : A) (l1 l2 : list A) :
    subseq l1 l2 -> subseq (x :: l1) (x :: l2).

(** No two rows are equal. *)
Definition distinct_rows (rs : list row) : Prop :=
  ForallOrdPairs (fun a b => row_eqb a b = false) rs.

(** The column has no null cell. *)
Definition complete (s : Series) : Prop :=
  match s with
  | Int64Series _ => True
  | Float64Series xs => forall x, In x xs -> isnan x = false
  | ObjectSeries os => ~ In None os
  end.

(** [s'] has the cells of [s] wherever [s] has one. *)
Definition keeps_cells (s s' : Series) : Prop :=
  forall k c, nth_error (cells s) k = Some c ->
              c <> FloatCell NaN -> c <> ObjCell None ->
              nth_error (cells s') k = Some c.

End MoreProperties.

(* ================================================================== *)
(** * Part II: properties *)
(* ================================================================== *)

Unset Implicit Arguments.

(** ** Boolean-mask selection *)

Module SelectFacts.
Import Float64 Pandas.

Lemma select_nil {A : Type} (mask : list bool) : select mask (@nil A) = [].
Proof. destruct mask as [|[] mask]; reflexivity. Qed.

Lemma select_map {A B : Type} (f : A -> B) (mask : list bool) (l : list A) :
  select mask (map f l) = map f (select mask l).
Proof.
  revert l; induction mask as [|b mask IH]; intros [|x l]; simpl;
    try reflexivity.
  destruct b; simpl; now rewrite IH.
Qed.

Lemma select_incl {A : Type} (mask : list bool) (l : list A) (x : A) :
  In x (select mask l) -> In x l.
Proof.
  revert l; induction mask as [|b mask IH]; intros [|y l]; simpl; try tauto.
  destruct b; simpl; intros H.
  - destruct H as [H|H]; [now left | right; now apply IH].
  - right; now apply IH.
Qed.

(** Selecting with a mask that is true everywhere keeps the list. *)
Lemma select_all_true {A : Type} (mask : list bool) (l : list A) :
  forallb (fun b => b) mask = true -> length l <= length mask ->
  select mask l = l.
Proof.
  revert l; induction mask as [|b mask IH]; intros [|x l]; simpl;
    try reflexivity; try lia.
  intros H Hlen. apply andb_prop in H as [Hb Hm]. subst b.
  rewrite IH; [reflexivity | assumption | lia].
Qed.


(** A column cut by a mask is never longer than the index cut by it. *)
Lemma select_length_le {A B : Type} (mask : list bool) (idx : list A)
  (l : list B) :
  length mask = length idx ->
  length (select mask l) <= length (select mask idx).
Proof.
  revert idx l; induction mask as [|b mask IH]; intros [|i idx] [|x l] Hlen;
    simpl in *; try lia; try discriminate.
  injection Hlen as Hlen. specialize (IH idx l Hlen).
  destruct b; simpl; lia.
Qed.

Lemma select_length {A B : Type} (mask : list bool) (l1 : list A)
  (l2 : list B) :
  length l1 = length l2 ->
  length (select mask l1) = length (select mask l2).
Proof.
  revert l1 l2; induction mask as [|b mask IH]; intros [|x l1] [|y l2] Hlen;
    simpl in *; try reflexivity; try discriminate.
  injection Hlen as Hlen. specialize (IH l1 l2 Hlen).
  destruct b; simpl; lia.
Qed.

Lemma cells_select (mask : list bool) (s : Series) :
  cells (select_series mask s) = select mask (cells s).
Proof. destruct s; simpl; now rewrite select_map. Qed.

Lemma cells_length (s : Series) : length (cells s) = size s.
Proof. destruct s; simpl; apply length_map. Qed.

Lemma rows_of_length (n : nat) (cols : list (list cell)) :
  length (rows_of n cols) = n.
Proof.
  revert cols; induction n as [|n IH]; intros cols; simpl;
    [reflexivity | now rewrite IH].
Qed.

Lemma rows_of_S (n : nat) (cols : list (list cell)) :
  rows_of (S n) cols
  = map (@hd_error cell) cols :: rows_of n (map (@tl cell) cols).
Proof. reflexivity. Qed.

Lemma select_tl {A : Type} (mask : list bool) (c : list A) :
  tl (select (true :: mask) c) = select mask (tl c)
  /\ hd_error (select (true :: mask) c) = hd_error c
  /\ select (false :: mask) c = select mask (tl c).
Proof. destruct c; simpl; now rewrite ?select_nil. Qed.

(** The rows of the selected columns are the selected rows. *)
Lemma rows_of_select {A : Type} (mask : list bool) (idx : list A)
  (cols : list (list cell)) :
  length mask = length idx ->
  rows_of (length (select mask idx)) (map (select mask) cols)
  = select mask (rows_of (length idx) cols).
Proof.
  revert idx cols; induction mask as [|b mask IH]; intros [|i idx] cols Hlen;
    try discriminate; try reflexivity.
  injection Hlen as Hlen.
  change (length (i :: idx)) with (S (length idx)).
  rewrite rows_of_S.
  destruct b.
  - change (select (true :: mask) (i :: idx)) with (i :: select mask idx).
    change (length (i :: select mask idx))
      with (S (length (select mask idx))).
    rewrite rows_of_S.
    change (select (true :: mask) (?x :: ?l)) with (x :: select mask l).
    rewrite <- IH by assumption.
    f_equal.
    + rewrite map_map. apply map_ext. intros c. apply (select_tl mask c).
    + f_equal. rewrite !map_map. apply map_ext. intros c.
      apply (select_tl mask c).
  - change (select (false :: mask) (i :: idx)) with (select mask idx).
    change (select (false :: mask) (?x :: ?l)) with (select mask l).
    rewrite <- IH by assumption.
    f_equal. rewrite map_map. apply map_ext. intros c.
    apply (select_tl mask c).
Qed.

Lemma rows_getitem_mask (mask : list bool) (df : DataFrame) :
  length mask = length (index df) ->
  rows (getitem_mask mask df) = select mask (rows df).
Proof.
  intros Hlen. unfold rows, getitem_mask; simpl.
  rewrite <- rows_of_select by assumption.
  f_equal. rewrite !map_map. apply map_ext. intros [n s]; simpl.
  apply cells_select.
Qed.

End SelectFacts.

(** ** Duplicate removal *)

Module DuplicateFacts.
Import Float64 Pandas DataAnalysisTool Properties SelectFacts.

Lemma seen_before_length (seen rs : list row) :
  length (seen_before seen rs) = length rs.
Proof.
  revert seen; induction rs as [|r rs IH]; intros seen; simpl;
    [reflexivity | now rewrite IH].
Qed.

Lemma seen_after_length (rs : list row) :
  length (seen_after rs) = length rs.
Proof. induction rs as [|r rs IH]; simpl; [reflexivity | now rewrite IH]. Qed.

Lemma duplicated_length (keep : keep_arg) (df : DataFrame) :
  length (duplicated keep df) = length (index df).
Proof.
  unfold duplicated, rows. destruct keep.
  - now rewrite seen_before_length, rows_of_length.
  - now rewrite seen_after_length, rows_of_length.
  - rewrite length_map, length_combine, seen_before_length,
      seen_after_length, rows_of_length. lia.
Qed.

Lemma existsb_false_incl {A : Type} (f : A -> bool) (l l' : list A) :
  (forall x, In x l' -> In x l) ->
  existsb f l = false -> existsb f l' = false.
Proof.
  intros Hincl Hl.
  destruct (existsb f l') eqn:E; [|reflexivity].
  apply existsb_exists in E as [x [Hin Hf]].
  assert (existsb f l = true) as Ht
    by (apply existsb_exists; exists x; auto).
  congruence.
Qed.

(** After the rows marked by [keep='first'] are gone, none is marked. *)
Lemma seen_before_select (rs seen seen' : list row) :
  (forall x, In x seen' -> In x seen) ->
  forallb negb
    (seen_before seen' (select (map negb (seen_before seen rs)) rs)) = true.
Proof.
  revert seen seen'; induction rs as [|r rs IH]; intros seen seen' Hincl;
    simpl; [reflexivity|].
  destruct (existsb (row_eqb r) seen) eqn:E; simpl.
  - apply IH. intros x Hx. right. now apply Hincl.
  - rewrite (existsb_false_incl _ seen seen' Hincl E). simpl.
    apply IH. intros x [Hx|Hx]; [now left | right; now apply Hincl].
Qed.

(** The same for [keep='last']. *)
Lemma seen_after_select (rs : list row) :
  forallb negb (seen_after (select (map negb (seen_after rs)) rs)) = true.
Proof.
  induction rs as [|r rs IH]; simpl; [reflexivity|].
  destruct (existsb (row_eqb r) rs) eqn:E; simpl; [assumption|].
  rewrite (existsb_false_incl _ rs _ (select_incl _ rs) E). simpl.
  assumption.
Qed.

Lemma forallb_negb_map (m : list bool) :
  forallb negb m = true -> forallb (fun b => b) (map negb m) = true.
Proof.
  induction m as [|b m IH]; simpl; [reflexivity|].
  intros H. apply andb_prop in H as [Hb Hm]. now rewrite Hb, IH.
Qed.

Lemma size_select_series (mask : list bool) (s : Series) :
  size (select_series mask s) = length (select mask (cells s)).
Proof. now rewrite <- cells_select, cells_length. Qed.

Lemma getitem_mask_bounded (mask : list bool) (df : DataFrame) :
  length mask = length (index df) -> bounded (getitem_mask mask df).
Proof.
  intros Hlen. unfold bounded, getitem_mask; simpl.
  apply Forall_forall. intros [n s] Hin.
  apply in_map_iff in Hin as [[n0 s0] [Heq _]].
  injection Heq as _ Hs. subst s. simpl.
  rewrite size_select_series. now apply select_length_le.
Qed.

Lemma select_series_all_true (mask : list bool) (s : Series) :
  forallb (fun b => b) mask = true -> size s <= length mask ->
  select_series mask s = s.
Proof.
  intros Ht Hlen. destruct s; simpl in *; f_equal;
    now apply select_all_true.
Qed.

Lemma getitem_mask_all_true (mask : list bool) (df : DataFrame) :
  forallb (fun b => b) mask = true ->
  length mask = length (index df) ->
  bounded df ->
  getitem_mask mask df = df.
Proof.
  intros Ht Hlen Hb. destruct df as [idx cols].
  unfold getitem_mask, bounded in *; simpl in *. f_equal.
  - apply select_all_true; [assumption | lia].
  - induction cols as [|[n s] cols IH]; simpl; [reflexivity|].
    inversion Hb as [|? ? Hs Hrest]; subst. simpl in Hs.
    rewrite IH by assumption.
    rewrite select_series_all_true; [reflexivity | assumption | lia].
Qed.

(** The same for [keep=False], which marks a row when an equal row comes
    before or after it. *)
Lemma seen_both_select_before (rs seen seen' : list row) :
  (forall x, In x seen' -> In x seen) ->
  forallb negb
    (seen_before seen'
       (select
          (map negb
             (map (fun ab => fst ab || snd ab)
                  (combine (seen_before seen rs) (seen_after rs))))
          rs)) = true.
Proof.
  revert seen seen'; induction rs as [|r rs IH]; intros seen seen' Hincl;
    simpl; [reflexivity|].
  destruct (existsb (row_eqb r) seen) eqn:E; simpl.
  - apply IH. intros x Hx. right. now apply Hincl.
  - destruct (existsb (row_eqb r) rs) eqn:E'; simpl.
    + apply IH. intros x Hx. right. now apply Hincl.
    + rewrite (existsb_false_incl _ seen seen' Hincl E). simpl.
      apply IH. intros x [Hx|Hx]; [now left | right; now apply Hincl].
Qed.

Lemma seen_both_select_after (rs seen : list row) :
  forallb negb
    (seen_after
       (select
          (map negb
             (map (fun ab => fst ab || snd ab)
                  (combine (seen_before seen rs) (seen_after rs))))
          rs)) = true.
Proof.
  revert seen; induction rs as [|r rs IH]; intros seen; simpl;
    [reflexivity|].
  destruct (existsb (row_eqb r) seen) eqn:E; simpl; [apply IH|].
  destruct (existsb (row_eqb r) rs) eqn:E'; simpl; [apply IH|].
  rewrite (existsb_false_incl _ rs _ (select_incl _ rs) E'). simpl.
  apply IH.
Qed.

Lemma all_false_combine (a b : list bool) :
  forallb negb a = true -> forallb negb b = true ->
  forallb negb (map (fun ab => fst ab || snd ab) (combine a b)) = true.
Proof.
  revert b; induction a as [|x a IH]; intros [|y b]; simpl;
    try reflexivity.
  intros Ha Hb. apply andb_prop in Ha as [Hx Ha].
  apply andb_prop in Hb as [Hy Hb].
  destruct x, y; try discriminate. simpl. now apply IH.
Qed.

(** Dropping the duplicates of a frame whose duplicates were dropped
    selects every row. *)
Lemma duplicated_after_drop (keep : keep_arg) (df : DataFrame) :
  forallb negb
    (duplicated keep (getitem_mask (map negb (duplicated keep df)) df))
  = true.
Proof.
  assert (Hlen : length (map negb (duplicated keep df)) = length (index df))
    by now rewrite length_map, duplicated_length.
  destruct keep; unfold duplicated in *;
    rewrite rows_getitem_mask by assumption.
  - now apply seen_before_select.
  - apply seen_after_select.
  - apply all_false_combine;
      [now apply seen_both_select_before | apply seen_both_select_after].
Qed.

(** [drop_duplicates] is idempotent, for each value of [keep]. *)
Lemma drop_duplicates_idempotent (keep : keep_arg) (df : DataFrame) :
  drop_duplicates keep (drop_duplicates keep df) = drop_duplicates keep df.
Proof.
  destruct (empty df) eqn:E.
  - assert (H : drop_duplicates keep df = df)
      by (unfold drop_duplicates; now rewrite E).
    rewrite H. exact H.
  - set (mask := map negb (duplicated keep df)).
    assert (H : drop_duplicates keep df = getitem_mask mask df)
      by (unfold drop_duplicates; now rewrite E).
    rewrite H. unfold drop_duplicates.
    destruct (empty (getitem_mask mask df)); [reflexivity|].
    assert (Hlen : length mask = length (index df))
      by (unfold mask; now rewrite length_map, duplicated_length).
    apply getitem_mask_all_true.
    + apply forallb_negb_map. apply duplicated_after_drop.
    + now rewrite length_map, duplicated_length.
    + now apply getitem_mask_bounded.
Qed.

(** C8.  For each of the three strategies the dialog offers (and for a
    cancelled dialog), running [remove_duplicates] on its own result
    changes nothing: a second pass yields the same frame, index and
    columns, as a single pass. *)
Theorem remove_duplicates_idempotent (strat : option strategy)
  (df : DataFrame) :
  remove_duplicates strat (remove_duplicates strat df)
  = remove_duplicates strat df.
Proof.
  destruct strat as [[| |]|]; simpl;
    try apply drop_duplicates_idempotent.
  reflexivity.
Qed.

(** The strategy ['all'] is the strategy ['first']: the call that handles it
    passes no [keep]. *)
Lemma remove_duplicates_all_is_first (df : DataFrame) :
  remove_duplicates (Some all) df = remove_duplicates (Some first) df.
Proof. reflexivity. Qed.

(** What dropping every member of a duplicate group gives on the rows
    [("a",1), ("a",1), ("b",2)]: pandas' [keep=False]. *)
Lemma drop_duplicates_keep_False_letters :
  drop_duplicates keep_False Examples.letters
  = {| index := [2%Z];
       columns := [ ("key"%string, ObjectSeries [Some "b"%string]);
                    ("n"%string, Int64Series [2%Z]) ] |}.
Proof. reflexivity. Qed.

(** C1.  On the rows [("a",1), ("a",1), ("b",2)] the strategy ['all'] keeps
    the first ("a",1) next to ("b",2): the duplicate group is not removed
    as a whole. *)
Theorem remove_duplicates_all_letters :
  remove_duplicates (Some all) Examples.letters
  = {| index := [0%Z; 2%Z];
       columns := [ ("key"%string, ObjectSeries [Some "a"%string; Some "b"%string]);
                    ("n"%string, Int64Series [1%Z; 2%Z]) ] |}.
Proof. reflexivity. Qed.

End DuplicateFacts.

(** ** Order and keys of float64 values *)

Module Float64Facts.
Import Float64.

(** *** Rounding *)

Lemma round_pos_not_nan (a b : positive) : isnan (round_pos a b) = false.
Proof.
  unfold round_pos. cbv zeta. now destruct (Z.leb _ _).
Qed.

(** Rounding gives a number or an infinity, never NaN. *)
Lemma round_not_nan (q : Q) : isnan (round q) = false.
Proof.
  unfold round. destruct (Qnum q) as [|a|a]; [reflexivity| |].
  - apply round_pos_not_nan.
  - pose proof (round_pos_not_nan a (Qden q)) as H.
    now destruct (round_pos a (Qden q)).
Qed.



Lemma floor_log2_integer (a : positive) : floor_log2 a 1 = Z.log2 (Zpos a).
Proof.
  unfold floor_log2. change (Z.log2 1) with 0%Z. rewrite Z.sub_0_r.
  pose proof (Z.log2_nonneg (Zpos a)) as H0.
  rewrite Z.max_l by lia. rewrite Z.max_r by lia.
  change (2 ^ 0)%Z with 1%Z. rewrite Z.mul_1_r, Z.mul_1_l.
  destruct (Z.log2_spec (Zpos a)) as [H _]; [lia|].
  apply Z.leb_le in H. now rewrite H.
Qed.

Lemma nearest_even_integer (x : Z) : nearest_even x 1 = x.
Proof.
  unfold nearest_even. rewrite Z.mod_1_r, Z.div_1_r. reflexivity.
Qed.

Lemma scaled_integer (a j : Z) :
  (0 <= j)%Z -> scaled (a * 2 ^ j) (- j) = inject_Z a.
Proof.
  intros Hj. unfold scaled.
  assert (Hp : (0 < 2 ^ j)%Z) by (apply Z.pow_pos_nonneg; lia).
  rewrite Z.max_r by lia. rewrite Z.opp_involutive, Z.max_l by lia.
  change (2 ^ 0)%Z with 1%Z. rewrite Z.mul_1_r.
  transitivity (Qred (inject_Z a)).
  - apply Qred_complete. unfold Qeq, inject_Z. simpl.
    rewrite Z2Pos.id by assumption. lia.
  - unfold Qred, inject_Z.
    pose proof (Z.ggcd_gcd a 1) as Hg.
    pose proof (Z.ggcd_correct_divisors a 1) as Hd.
    destruct (Z.ggcd a 1) as [g [aa bb]]. simpl in Hg, Hd.
    rewrite Z.gcd_1_r in Hg. subst g. destruct Hd as [Ha Hb].
    rewrite Z.mul_1_l in Ha, Hb. now subst.
Qed.

Lemma round_pos_integer (a : positive) :
  (Zpos a < 2 ^ 53)%Z -> round_pos a 1 = Fin (inject_Z (Zpos a)).
Proof.
  intros Ha. unfold round_pos. rewrite floor_log2_integer.
  assert (He : (0 <= Z.log2 (Zpos a) < 53)%Z).
  { split; [apply Z.log2_nonneg|]. apply Z.log2_lt_pow2; lia. }
  set (e := Z.log2 (Zpos a)) in *.
  cbv zeta. replace (Z.max (e - 52) (-1074)) with (e - 52)%Z by lia.
  replace (Z.max (- (e - 52)) 0) with (52 - e)%Z by lia.
  replace (Z.max (e - 52) 0) with 0%Z by lia.
  change (Z.pos 1 * 2 ^ 0)%Z with 1%Z. rewrite nearest_even_integer.
  assert (Hov : (2 ^ 1024 <=? Z.pos a * 2 ^ (52 - e) * 2 ^ (e - 52))%Z
                = false).
  { apply Z.leb_gt.
    destruct (Z.eq_dec e 52) as [->|Hne].
    - change (2 ^ (52 - 52))%Z with 1%Z. rewrite !Z.mul_1_r.
      apply Z.lt_trans with (2 ^ 53)%Z; [assumption|].
      apply Z.pow_lt_mono_r; lia.
    - rewrite (Z.pow_neg_r 2 (e - 52)) by lia. rewrite Z.mul_0_r.
      apply Z.pow_pos_nonneg; lia. }
  rewrite Hov. f_equal.
  replace (e - 52)%Z with (- (52 - e))%Z by lia.
  apply scaled_integer. lia.
Qed.

(** An integer below [2^53] is a float64 as it is. *)
Lemma round_integer (z : Z) :
  (Z.abs z < 2 ^ 53)%Z -> round (inject_Z z) = Fin (inject_Z z).
Proof.
  intros Hz. unfold round, inject_Z at 1. cbn [Qnum Qden].
  destruct z as [|a|a].
  - reflexivity.
  - apply round_pos_integer. exact Hz.
  - rewrite round_pos_integer by exact Hz. reflexivity.
Qed.

Lemma of_nat_exact (n : nat) :
  (Z.of_nat n < 2 ^ 53)%Z -> of_nat n = Fin (inject_Z (Z.of_nat n)).
Proof. intros H. apply round_integer. lia. Qed.

(** *** Sums *)

Lemma fadd_finite_not_nan (acc x : f64) :
  isnan acc = false -> isfinite x = true -> isnan (fadd acc x) = false.
Proof.
  destruct acc as [a| | |], x as [b| | |]; try discriminate;
    try reflexivity.
  intros _ _. apply round_not_nan.
Qed.

Lemma fold_fadd_not_nan (vs : list f64) (acc : f64) :
  isnan acc = false ->
  (forall x, In x vs -> isfinite x = true) ->
  isnan (fold_left fadd vs acc) = false.
Proof.
  revert acc; induction vs as [|x vs IH]; intros acc Hacc H;
    [assumption|].
  simpl. apply IH.
  - apply fadd_finite_not_nan; [assumption | apply H; now left].
  - intros y Hy. apply H. now right.
Qed.

(** *** Comparisons *)

Lemma fle_Fin (a b : Q) : fle (Fin a) (Fin b) = true <-> (a <= b)%Q.
Proof.
  unfold fle, fcmp. rewrite Qle_alt.
  destruct (a ?= b)%Q; split; intros; congruence.
Qed.

Lemma same_key_Fin (a b : Q) : same_key (Fin a) (Fin b) = true <-> (a == b)%Q.
Proof.
  unfold same_key, fcmp. rewrite Qeq_alt.
  destruct (a ?= b)%Q; split; intros; congruence.
Qed.

Ltac by_cases :=
  try (cbn; intros; congruence); try (cbn; intros; reflexivity).

Lemma fle_refl (x : f64) : isnan x = false -> fle x x = true.
Proof. destruct x as [a| | |]; by_cases. intros _. apply fle_Fin. lra. Qed.

Lemma fle_total (x y : f64) :
  isnan x = false -> isnan y = false -> fle x y = false -> fle y x = true.
Proof.
  destruct x as [a| | |], y as [b| | |]; by_cases.
  intros _ _ H. apply fle_Fin.
  destruct (Qlt_le_dec b a) as [Hlt|Hle]; [lra|].
  apply fle_Fin in Hle. congruence.
Qed.

Lemma fle_trans (x y z : f64) :
  fle x y = true -> fle y z = true -> fle x z = true.
Proof.
  destruct x as [a| | |], y as [b| | |], z as [c| | |]; by_cases.
  rewrite !fle_Fin. lra.
Qed.

Lemma same_key_refl (x : f64) : same_key x x = true.
Proof. destruct x as [a| | |]; by_cases. apply same_key_Fin. lra. Qed.

Lemma same_key_sym (x y : f64) : same_key x y = true -> same_key y x = true.
Proof.
  destruct x as [a| | |], y as [b| | |]; by_cases.
  rewrite !same_key_Fin. lra.
Qed.

Lemma same_key_trans (x y z : f64) :
  same_key x y = true -> same_key y z = true -> same_key x z = true.
Proof.
  destruct x as [a| | |], y as [b| | |], z as [c| | |]; by_cases.
  rewrite !same_key_Fin. lra.
Qed.

Lemma fle_same_key (v u w : f64) :
  fle v u = true -> same_key u w = true -> fle v w = true.
Proof.
  destruct v as [a| | |], u as [b| | |], w as [c| | |]; by_cases.
  rewrite !fle_Fin, same_key_Fin. lra.
Qed.

(** Both sides of a key comparison can be replaced by values of the same
    key. *)
Lemma same_key_compat (x y z : f64) :
  same_key x y = true -> same_key x z = same_key y z.
Proof.
  intros H.
  destruct (same_key y z) eqn:E.
  - now apply same_key_trans with y.
  - destruct (same_key x z) eqn:E'; [|reflexivity].
    rewrite <- E. symmetry.
    apply same_key_trans with x; [now apply same_key_sym | assumption].
Qed.

End Float64Facts.

(** ** Sorting and the mode *)

Module ModeFacts.
Import Float64 Pandas Properties Float64Facts.

Lemma dropna_In (x : f64) (xs : list f64) :
  In x (dropna xs) <-> In x xs /\ isnan x = false.
Proof.
  unfold dropna. rewrite filter_In.
  destruct (isnan x); simpl; intuition congruence.
Qed.

Lemma insert_In (a x : f64) (l : list f64) :
  In x (insert a l) <-> x = a \/ In x l.
Proof.
  induction l as [|y l IH]; simpl; [intuition|].
  destruct (fle a y); simpl; [intuition | rewrite IH; intuition].
Qed.

Lemma sort_In (x : f64) (l : list f64) : In x (sort l) <-> In x l.
Proof.
  induction l as [|a l IH]; simpl; [reflexivity|].
  rewrite insert_In, IH. intuition.
Qed.

Lemma insert_length (a : f64) (l : list f64) :
  length (insert a l) = S (length l).
Proof.
  induction l as [|y l IH]; simpl; [reflexivity|].
  destruct (fle a y); simpl; [reflexivity | now rewrite IH].
Qed.

Lemma sort_length (l : list f64) : length (sort l) = length l.
Proof.
  induction l as [|a l IH]; simpl; [reflexivity|].
  now rewrite insert_length, IH.
Qed.

Lemma insert_hd (a : f64) (l : list f64) :
  hd_error (insert a l)
  = Some (match l with
          | [] => a
          | y :: _ => if fle a y then a else y
          end).
Proof. destruct l as [|y l]; simpl; [reflexivity|]. now destruct (fle a y). Qed.

(** The head of a sorted list of numbers is one of them and none is
    smaller. *)
Lemma sort_hd_min (l : list f64) (v : f64) :
  (forall x, In x l -> isnan x = false) ->
  hd_error (sort l) = Some v ->
  In v l /\ forall x, In x l -> fle v x = true.
Proof.
  revert v; induction l as [|a l IH]; intros v Hnum; simpl;
    [discriminate|].
  rewrite insert_hd.
  assert (Ha : isnan a = false) by (apply Hnum; now left).
  assert (Hl : forall x, In x l -> isnan x = false)
    by (intros x Hx; apply Hnum; now right).
  destruct (sort l) as [|y s] eqn:Es.
  - intros Hv. injection Hv as <-.
    assert (l = []) as ->
      by (apply length_zero_iff_nil; rewrite <- sort_length, Es;
          reflexivity).
    split; [now left|]. intros x [<-|[]]. now apply fle_refl.
  - destruct (IH y Hl eq_refl) as [Hy Hmin].
    destruct (fle a y) eqn:E; intros Hv; injection Hv as <-.
    + split; [now left|]. intros x [<-|Hx]; [now apply fle_refl|].
      apply fle_trans with y; auto.
    + split; [now right|]. intros x [<-|Hx]; [|now apply Hmin].
      apply fle_total; auto.
Qed.

Lemma max_ge {A : Type} (f : A -> nat) (l : list A) (x : A) :
  In x l -> f x <= fold_right Nat.max 0 (map f l).
Proof.
  induction l as [|a l IH]; simpl; [tauto|].
  intros [<-|Hx]; [lia|]. specialize (IH Hx). lia.
Qed.

Lemma max_attained {A : Type} (f : A -> nat) (l : list A) :
  l <> [] -> exists x, In x l /\ f x = fold_right Nat.max 0 (map f l).
Proof.
  induction l as [|a l IH]; [congruence|]. intros _. simpl.
  destruct l as [|b l].
  - exists a. simpl. split; [now left | lia].
  - destruct IH as [x [Hx Hfx]]; [discriminate|].
    destruct (Nat.max_spec (f a) (fold_right Nat.max 0 (map f (b :: l))))
      as [[_ Hm]|[_ Hm]]; rewrite Hm.
    + exists x. split; [now right | assumption].
    + exists a. split; [now left | reflexivity].
Qed.

Lemma occurrences_same_key (x y : f64) (vs : list f64) :
  same_key x y = true -> occurrences x vs = occurrences y vs.
Proof.
  intros H. unfold occurrences. f_equal.
  apply filter_ext. intros z. now apply same_key_compat.
Qed.

Lemma unique_by_In {A : Type} (eqb : A -> A -> bool) (l : list A) (x : A) :
  In x (unique_by eqb l) -> In x l.
Proof.
  induction l as [|a l IH]; simpl; [tauto|].
  intros [<-|Hx]; [now left|].
  apply filter_In in Hx as [Hx _]. right. now apply IH.
Qed.

(** Every value has a representative of its key among the distinct ones. *)
Lemma unique_by_cover (l : list f64) (w : f64) :
  In w l -> exists u, In u (unique_by same_key l) /\ same_key u w = true.
Proof.
  induction l as [|a l IH]; simpl; [tauto|].
  intros [<-|Hw].
  - exists a. split; [now left | apply same_key_refl].
  - destruct (IH Hw) as [u [Hu Huw]].
    destruct (same_key a u) eqn:E.
    + exists a. split; [now left|]. now apply same_key_trans with u.
    + exists u. split; [|assumption]. right.
      apply filter_In. split; [assumption | now rewrite E].
Qed.

Lemma is_mode_max (v : f64) (xs : list f64) :
  is_mode v xs ->
  occurrences v (dropna xs) = max_occurrences (dropna xs).
Proof.
  intros [Hin Hmax]. unfold max_occurrences.
  destruct (max_attained (fun x => occurrences x (dropna xs)) (dropna xs))
    as [x [Hx Hfx]].
  - intros E. rewrite E in Hin. destruct Hin.
  - pose proof (max_ge (fun x => occurrences x (dropna xs)) _ _ Hin).
    specialize (Hmax x Hx). simpl in *. lia.
Qed.

Lemma mode_In (v : f64) (xs : list f64) :
  In v (mode xs) <->
  In v (unique_by same_key (dropna xs))
  /\ occurrences v (dropna xs) = max_occurrences (dropna xs).
Proof.
  unfold mode. rewrite sort_In, filter_In, Nat.eqb_eq. reflexivity.
Qed.

Lemma mode_is_mode (v : f64) (xs : list f64) :
  In v (mode xs) -> is_mode v xs.
Proof.
  rewrite mode_In. intros [Hu Hocc].
  apply unique_by_In in Hu. split; [assumption|].
  intros w Hw. rewrite Hocc.
  apply (max_ge (fun x => occurrences x (dropna xs)) _ _ Hw).
Qed.

Lemma mode_complete (w : f64) (xs : list f64) :
  is_mode w xs -> exists u, In u (mode xs) /\ same_key u w = true.
Proof.
  intros Hw. pose proof (is_mode_max _ _ Hw) as Hmax. destruct Hw as [Hin _].
  destruct (unique_by_cover _ _ Hin) as [u [Hu Huw]].
  exists u. split; [|assumption].
  apply mode_In. split; [assumption|].
  now rewrite (occurrences_same_key _ _ _ Huw).
Qed.

(** A column with a value has a mode; a column without one has none. *)
Lemma mode_nonempty (xs : list f64) : dropna xs <> [] -> mode xs <> [].
Proof.
  intros Hne.
  destruct (max_attained (fun x => occurrences x (dropna xs)) _ Hne)
    as [x [Hx Hfx]].
  assert (Hmode : is_mode x xs).
  { split; [assumption|]. intros w Hw. simpl in Hfx. rewrite Hfx.
    apply (max_ge (fun x => occurrences x (dropna xs)) _ _ Hw). }
  destruct (mode_complete _ _ Hmode) as [u [Hu _]].
  intros E. rewrite E in Hu. destruct Hu.
Qed.

Lemma mode_all_null (xs : list f64) : dropna xs = [] -> mode xs = [].
Proof. intros E. unfold mode. now rewrite E. Qed.

(** [mode().iloc[0]] is the smallest of the modes. *)
Lemma mode_iloc0 (xs : list f64) (v : f64) :
  iloc0 (mode xs) = Ok v ->
  is_mode v xs /\ forall w, is_mode w xs -> fle v w = true.
Proof.
  intros Hv.
  assert (Hhd : hd_error (mode xs) = Some v).
  { destruct (mode xs); simpl in *; [discriminate | now injection Hv as ->]. }
  assert (Hv_in : In v (mode xs)).
  { destruct (mode xs); simpl in *; [discriminate|].
    injection Hhd as ->. now left. }
  unfold mode in Hhd. cbv zeta in Hhd.
  apply sort_hd_min in Hhd as [_ Hmin].
  - split; [now apply mode_is_mode|].
    intros w Hw. destruct (mode_complete _ _ Hw) as [u [Hu Huw]].
    apply fle_same_key with u; [|assumption].
    apply Hmin. unfold mode in Hu. cbv zeta in Hu.
    rewrite sort_In in Hu. exact Hu.
  - intros x Hx. apply filter_In in Hx as [Hx _].
    apply unique_by_In in Hx. now apply dropna_In in Hx.
Qed.

End ModeFacts.

(** ** Filling missing values *)

Module MissingValueFacts.
Import Float64 Pandas DataAnalysisTool Properties Float64Facts ModeFacts.

(** *** The loop over the columns *)

Lemma update_columns_eq (body : Series -> result Series) (df : DataFrame) :
  update_columns body df
  = ({| index := index df;
        columns := fst (for_each_column body (columns df)) |},
     snd (for_each_column body (columns df))).
Proof.
  unfold update_columns. now destruct (for_each_column body (columns df)).
Qed.

Lemma for_each_column_cons_ok (body : Series -> result Series)
  (col : string) (s s' : Series) (rest : list (string * Series)) :
  body s = Ok s' ->
  for_each_column body ((col, s) :: rest)
  = ((col, s') :: fst (for_each_column body rest),
     snd (for_each_column body rest)).
Proof.
  intros H. simpl. rewrite H. now destruct (for_each_column body rest).
Qed.

(** When the body succeeds on every column, nothing is raised and every
    column is related to its update. *)
Lemma for_each_column_total (R : Series -> Series -> Prop)
  (body : Series -> result Series) (cols : list (string * Series)) :
  (forall nc, In nc cols -> exists s', body (snd nc) = Ok s' /\ R (snd nc) s') ->
  snd (for_each_column body cols) = None
  /\ Forall2 (fun nc nc' => fst nc' = fst nc /\ R (snd nc) (snd nc'))
       cols (fst (for_each_column body cols)).
Proof.
  induction cols as [|[col s] cols IH]; intros H.
  - split; [reflexivity | constructor].
  - destruct (H (col, s) (or_introl eq_refl)) as [s' [Hs' HR]].
    simpl in Hs'. rewrite (for_each_column_cons_ok _ _ _ _ _ Hs'). simpl.
    destruct IH as [IH1 IH2]; [intros nc Hnc; apply H; now right|].
    split; [assumption|]. constructor; [now split | assumption].
Qed.

(** Whether or not the body raises, every column is related to what the
    loop leaves in its place, for a relation that holds of an untouched
    column. *)
Lemma for_each_column_Forall2 (R : Series -> Series -> Prop)
  (body : Series -> result Series) (cols : list (string * Series)) :
  (forall s, R s s) ->
  (forall s s', body s = Ok s' -> R s s') ->
  Forall2 (fun nc nc' => fst nc' = fst nc /\ R (snd nc) (snd nc'))
    cols (fst (for_each_column body cols)).
Proof.
  intros Hrefl Hbody.
  assert (Hid : forall l : list (string * Series),
             Forall2 (fun nc nc' => fst nc' = fst nc /\ R (snd nc) (snd nc'))
               l l).
  { induction l; constructor; auto. }
  induction cols as [|[col s] cols IH]; [constructor|].
  destruct (body s) as [s'|e] eqn:E.
  - rewrite (for_each_column_cons_ok _ _ _ _ _ E). simpl.
    constructor; [split; auto | assumption].
  - simpl. rewrite E. simpl. apply Hid.
Qed.

(** The first column on which the body raises stops the loop: the columns
    before it are updated, the others are not. *)
Lemma for_each_column_stops (body : Series -> result Series)
  (f : Series -> Series) (pre post : list (string * Series))
  (col : string) (s : Series) (e : exn) :
  (forall nc, In nc pre -> body (snd nc) = Ok (f (snd nc))) ->
  body s = Raise e ->
  for_each_column body (pre ++ (col, s) :: post)
  = (map (fun nc => (fst nc, f (snd nc))) pre ++ (col, s) :: post, Some e).
Proof.
  intros Hpre Hs. induction pre as [|[c0 s0] pre IH]; simpl.
  - now rewrite Hs.
  - pose proof (Hpre (c0, s0) (or_introl eq_refl)) as H0. simpl in H0.
    rewrite H0, IH; [reflexivity|]. intros nc Hnc. apply Hpre. now right.
Qed.

(** When only one exception can be raised, a column that raises makes the
    loop raise it. *)
Lemma for_each_column_raises (body : Series -> result Series) (e0 : exn)
  (cols : list (string * Series)) :
  (forall s e, body s = Raise e -> e = e0) ->
  (exists nc, In nc cols /\ exists e, body (snd nc) = Raise e) ->
  snd (for_each_column body cols) = Some e0.
Proof.
  intros Honly [nc [Hin [e He]]].
  induction cols as [|[col s] cols IH]; [destruct Hin|].
  destruct (body s) as [s'|e'] eqn:E.
  - rewrite (for_each_column_cons_ok _ _ _ _ _ E). simpl.
    destruct Hin as [<-|Hin]; [simpl in He; congruence | now apply IH].
  - simpl. rewrite E. simpl. f_equal. now apply Honly with s.
Qed.

(** The loop over [pre ++ rest]: the loop over [pre], and when that
    raises nothing the loop over [rest]. *)
Lemma for_each_column_app (body : Series -> result Series)
  (pre rest : list (string * Series)) :
  for_each_column body (pre ++ rest)
  = match snd (for_each_column body pre) with
    | Some e => (fst (for_each_column body pre) ++ rest, Some e)
    | None =>
        (fst (for_each_column body pre) ++ fst (for_each_column body rest),
         snd (for_each_column body rest))
    end.
Proof.
  induction pre as [|[col s] pre IH]; simpl.
  - now destruct (for_each_column body rest).
  - destruct (body s) as [s'|e]; [|reflexivity].
    rewrite IH. destruct (for_each_column body pre) as [pre' [e|]]; simpl;
      reflexivity.
Qed.

Lemma for_each_column_length (body : Series -> result Series)
  (cols : list (string * Series)) :
  length (fst (for_each_column body cols)) = length cols.
Proof.
  induction cols as [|[col s] cols IH]; simpl; [reflexivity|].
  destruct (body s) as [s'|e]; [|reflexivity].
  destruct (for_each_column body cols) as [rest' raised]. simpl in *.
  now rewrite IH.
Qed.

(** *** [fillna] *)

Lemma fillna_length (v : f64) (xs : list f64) :
  length (fillna v xs) = length xs.
Proof. apply length_map. Qed.

Lemma fillna_keeps (v : f64) (xs : list f64) (k : nat) (x : f64) :
  nth_error xs k = Some x -> isnan x = false ->
  nth_error (fillna v xs) k = Some x.
Proof.
  intros Hk Hx. unfold fillna. rewrite nth_error_map, Hk. simpl.
  now rewrite Hx.
Qed.

Lemma fillna_fills (v : f64) (xs : list f64) (k : nat) (x : f64) :
  nth_error xs k = Some x -> isnan x = true ->
  nth_error (fillna v xs) k = Some v.
Proof.
  intros Hk Hx. unfold fillna. rewrite nth_error_map, Hk. simpl.
  now rewrite Hx.
Qed.

Lemma fillna_no_null (v : f64) (xs : list f64) :
  isnan v = false -> forall y, In y (fillna v xs) -> isnan y = false.
Proof.
  intros Hv y Hy. apply in_map_iff in Hy as [x [<- _]].
  now destruct (isnan x) eqn:E.
Qed.



Lemma to_float_is_number (s : Series) :
  is_number s = true <-> exists xs, to_float s = Some xs.
Proof.
  destruct s; simpl; split; intros H; try discriminate; eauto.
  destruct H; discriminate.
Qed.

Lemma all_null_dropna (xs : list f64) :
  forallb isnan xs = true <-> dropna xs = [].
Proof.
  induction xs as [|x xs IH]; simpl; [tauto|].
  destruct (isnan x); simpl; [assumption | split; discriminate].
Qed.


Section Claims.

Variable py_float : string -> option f64.

Lemma fill_statistic_only_IndexError (method : method_t) (s : Series)
  (e : exn) :
  fill_statistic method s = Raise e -> e = IndexError /\ method = Mode.
Proof.
  unfold fill_statistic. destruct (to_float s) as [xs|]; [|discriminate].
  destruct method; try discriminate.
  destruct (mode xs); simpl; [|discriminate].
  intros H. injection H as <-. now split.
Qed.


(** C2, as amended.  With a fill value that [float] rejects, the ['custom']
    branch raises [ValueError] at the first numeric column.  By then the
    object columns before it have had their nulls replaced by the text;
    that numeric column and every column after it are as they were. *)
Theorem custom_fill_unparseable (fill_value : string) (df : DataFrame)
  (texts : list (string * list (option string))) (col : string)
  (s : Series) (post : list (string * Series)) :
  columns df = object_columns texts ++ (col, s) :: post ->
  is_number s = true ->
  py_float fill_value = None ->
  handle_missing_values py_float (Some Custom) (Some fill_value) df
  = ({| index := index df;
        columns :=
          object_columns
            (map (fun c => (fst c, fillna_obj fill_value (snd c))) texts)
          ++ (col, s) :: post |},
     Some ValueError).
Proof.
  intros Hcols Hnum Hparse. simpl.
  rewrite update_columns_eq, Hcols.
  rewrite for_each_column_stops
    with (f := fun s => match s with
                        | ObjectSeries os =>
                            ObjectSeries (fillna_obj fill_value os)
                        | _ => s
                        end) (e := ValueError).
  - simpl. unfold object_columns. now rewrite !map_map.
  - intros nc Hnc. apply in_map_iff in Hnc as [c [<- _]]. reflexivity.
  - destruct s; simpl in *; try discriminate; now rewrite Hparse.
Qed.

(** C9.  When some numeric column has no value at all, the ['mode'] branch
    raises [IndexError]: the mode of that column is empty and [iloc[0]]
    is taken of it. *)
Theorem mode_fill_all_null_raises (fill_value : option string)
  (df : DataFrame) (col : string) (s : Series) (xs : list f64) :
  In (col, s) (columns df) ->
  to_float s = Some xs ->
  forallb isnan xs = true ->
  snd (handle_missing_values py_float (Some Mode) fill_value df)
  = Some IndexError.
Proof.
  intros Hin Hnum Hnull. simpl. rewrite update_columns_eq. simpl.
  apply for_each_column_raises.
  - intros s0 e He. now apply fill_statistic_only_IndexError in He.
  - exists (col, s). split; [assumption|]. exists IndexError. simpl.
    unfold fill_statistic. rewrite Hnum.
    apply all_null_dropna in Hnull. now rewrite (mode_all_null _ Hnull).
Qed.

(** C4, as amended.  The ['mode'] loop goes over the columns in order and
    raises [IndexError] at the first numeric column that has no value.  So
    for a numeric column that has a value: when every numeric column before
    it has one too, its nulls are replaced by its smallest mode, a value
    that occurs as often as any other and that no such value is below,
    whatever the columns after it are; and when a numeric column before it
    has none, [IndexError] is raised and the column is as it was. *)
Theorem mode_fill_smallest_mode (fill_value : option string)
  (df : DataFrame) (pre post : list (string * Series)) (col : string)
  (s : Series) (xs : list f64) :
  columns df = pre ++ (col, s) :: post ->
  to_float s = Some xs ->
  dropna xs <> [] ->
  let out := handle_missing_values py_float (Some Mode) fill_value df in
  index (fst out) = index df
  /\ ((forall c0 s0 ys, In (c0, s0) pre -> to_float s0 = Some ys ->
                        dropna ys <> []) ->
      exists v pre' post',
        columns (fst out) = pre' ++ (col, fillna_numeric v s) :: post'
        /\ length pre' = length pre
        /\ length post' = length post
        /\ is_mode v xs
        /\ forall w, is_mode w xs -> fle v w = true)
  /\ ((exists c0 s0 ys, In (c0, s0) pre /\ to_float s0 = Some ys
                        /\ dropna ys = []) ->
      snd out = Some IndexError
      /\ exists pre',
           columns (fst out) = pre' ++ (col, s) :: post
           /\ length pre' = length pre).
Proof.
  intros Hcols Hfloat Hvalue. cbv zeta.
  change (handle_missing_values py_float (Some Mode) fill_value df)
    with (update_columns (fill_statistic Mode) df).
  rewrite update_columns_eq. cbn [fst snd index columns].
  rewrite Hcols, for_each_column_app.
  split; [reflexivity|]. split.
  - intros Hpre.
    destruct (for_each_column_total (fun _ _ => True)
                (fill_statistic Mode) pre) as [Hnone _].
    { intros [c0 s0] Hin. simpl. unfold fill_statistic.
      destruct (to_float s0) as [ys|] eqn:E0; [|eauto].
      destruct (mode ys) as [|v l] eqn:Em; simpl; [|eauto].
      exfalso. apply (mode_nonempty ys); [|assumption].
      now apply (Hpre c0 s0). }
    rewrite Hnone.
    destruct (iloc0 (mode xs)) as [v|e] eqn:Em.
    + assert (Hbody : fill_statistic Mode s = Ok (fillna_numeric v s))
        by (unfold fill_statistic; now rewrite Hfloat, Em).
      rewrite (for_each_column_cons_ok _ _ _ _ _ Hbody).
      cbn [fst snd].
      exists v, (fst (for_each_column (fill_statistic Mode) pre)),
             (fst (for_each_column (fill_statistic Mode) post)).
      split; [reflexivity|].
      split; [apply for_each_column_length|].
      split; [apply for_each_column_length|].
      now apply mode_iloc0.
    + exfalso. apply (mode_nonempty xs Hvalue).
      destruct (mode xs); [reflexivity | discriminate].
  - intros [c0 [s0 [ys [Hin [E0 Hnull]]]]].
    assert (Hraise : snd (for_each_column (fill_statistic Mode) pre)
                     = Some IndexError).
    { apply for_each_column_raises.
      - intros s1 e He. now apply fill_statistic_only_IndexError in He.
      - exists (c0, s0). split; [assumption|]. exists IndexError. simpl.
        unfold fill_statistic. rewrite E0.
        now rewrite (mode_all_null _ Hnull). }
    rewrite Hraise. cbn [fst snd]. split; [reflexivity|].
    eexists. split; [reflexivity | apply for_each_column_length].
Qed.


End Claims.

(** The mean of a column exists as soon as the column has a value and its
    values are finite: added in row order, finite values give a number or
    one infinity, never NaN.  (A count is below [2^53].) *)
Lemma mean_exists (xs : list f64) :
  dropna xs <> [] ->
  (Z.of_nat (count xs) < 2 ^ 53)%Z ->
  (forall x, In x xs -> isnan x = false -> isfinite x = true) ->
  isnan (mean xs) = false.
Proof.
  intros Hne Hsmall Hfin. unfold mean.
  destruct (count xs =? 0) eqn:E.
  - apply Nat.eqb_eq, length_zero_iff_nil in E. congruence.
  - apply Nat.eqb_neq in E.
    assert (Hs : isnan (sum xs) = false).
    { apply fold_fadd_not_nan; [reflexivity|].
      intros x Hx. apply dropna_In in Hx as [Hx Hn]. auto. }
    rewrite (of_nat_exact _ Hsmall).
    assert (Hn : Qeq_bool (inject_Z (Z.of_nat (count xs))) 0 = false).
    { destruct (Qeq_bool _ 0) eqn:E0; [|reflexivity].
      apply Qeq_bool_iff in E0. unfold Qeq in E0. simpl in E0. lia. }
    destruct (sum xs) as [a| | |]; try discriminate.
    + unfold fdiv. rewrite Hn. apply round_not_nan.
    + simpl. now destruct (inject_Z (Z.of_nat (count xs)) ?= 0)%Q.
    + simpl. now destruct (inject_Z (Z.of_nat (count xs)) ?= 0)%Q.
Qed.

(** C2.  A text column with a null before a numeric column: the text
    column is filled before [float] raises, so the frame has changed. *)
Lemma custom_fill_not_atomic :
  handle_missing_values Examples.decimal_float (Some Custom)
    (Some "abc"%string) Examples.people
  = ({| index := [0; 1]%Z;
        columns :=
          [ ("name"%string, ObjectSeries [Some "ann"; Some "abc"]%string);
            ("age"%string, Float64Series [Fin 30; NaN]) ] |},
     Some ValueError)
  /\ fst (handle_missing_values Examples.decimal_float (Some Custom)
            (Some "abc"%string) Examples.people)
     <> Examples.people.
Proof. split; [reflexivity | discriminate]. Qed.

(** C4.  [3, 3, 1, 1, null]: 3 and 1 both occur twice and 3 comes first,
    but the null is filled with 1. *)
Lemma mode_fill_not_first_encountered :
  first_encountered_mode [Fin 3; Fin 3; Fin 1; Fin 1; NaN] = Some (Fin 3)
  /\ handle_missing_values Examples.decimal_float (Some Mode) None
       Examples.tied
     = ({| index := [0; 1; 2; 3; 4]%Z;
           columns :=
             [ ("x"%string,
                Float64Series [Fin 3; Fin 3; Fin 1; Fin 1; Fin 1]) ] |},
        None)
  /\ same_key (Fin 1) (Fin 3) = false.
Proof. repeat split. Qed.


End MissingValueFacts.

(** ** Field types *)

Module FieldTypeFacts.
Import Float64 Pandas DataAnalysisTool ModeFacts.

Lemma dropna_obj_In (v : string) (os : list (option string)) :
  In v (dropna_obj os) <-> In (Some v) os.
Proof.
  unfold dropna_obj. rewrite in_flat_map. split.
  - intros [[w|] [Hin Hv]]; simpl in Hv; [|tauto].
    destruct Hv as [<-|[]]. assumption.
  - intros Hin. exists (Some v). split; [assumption | now left].
Qed.

Lemma unique_by_string_In (l : list string) (x : string) :
  In x (unique_by String.eqb l) <-> In x l.
Proof.
  split; [apply unique_by_In|].
  induction l as [|a l IH]; simpl; [tauto|].
  intros [<-|Hx]; [now left|].
  destruct (String.eqb a x) eqn:E.
  - apply String.eqb_eq in E. now left.
  - right. apply filter_In. split; [now apply IH | now rewrite E].
Qed.

Lemma unique_by_string_NoDup (l : list string) :
  NoDup (unique_by String.eqb l).
Proof.
  induction l as [|a l IH]; simpl; constructor.
  - intros Hin. apply filter_In in Hin as [_ Hne].
    now rewrite String.eqb_refl in Hne.
  - now apply NoDup_filter.
Qed.

(** [nunique] of an object column counts its distinct non-null values. *)
Lemma nunique_obj_distinct (os : list (option string)) :
  exists distinct,
    NoDup distinct
    /\ (forall v, In v distinct <-> In (Some v) os)
    /\ nunique_obj os = length distinct.
Proof.
  exists (unique_by String.eqb (dropna_obj os)).
  split; [apply unique_by_string_NoDup|]. split; [|reflexivity].
  intros v. now rewrite unique_by_string_In, dropna_obj_In.
Qed.

Lemma field_types_In (cols : list (string * Series)) (col : string)
  (s : Series) (t : field_type) :
  In (col, s) cols -> classify s = Some t -> In (col, t) (field_types cols).
Proof.
  intros Hin Ht. induction cols as [|[c0 s0] cols IH]; [destruct Hin|].
  simpl. destruct Hin as [[= -> ->]|Hin].
  - rewrite Ht. now left.
  - destruct (classify s0); [right|]; now apply IH.
Qed.

(** C7, as amended.  An object column is labelled ['categorical'] when it
    has at most 10 distinct non-null values and ['string'] otherwise, and
    the label is in the table under the name of the column.  A column
    without rows has no value at all, so it is ['categorical']. *)
Theorem object_column_label :
  (forall (df : DataFrame) (col : string) (os : list (option string)),
      In (col, ObjectSeries os) (columns df) ->
      exists distinct label,
        NoDup distinct
        /\ (forall v, In v distinct <-> In (Some v) os)
        /\ label = (if length distinct <=? 10
                    then ft_categorical else ft_string)
        /\ classify (ObjectSeries os) = Some label
        /\ exists table,
             identify_field_types (Some df) = Some table
             /\ In (col, label) table)
  /\ classify (ObjectSeries []) = Some ft_categorical.
Proof.
  split; [|reflexivity].
  intros df col os Hin.
  destruct (nunique_obj_distinct os) as [distinct [Hnd [Hiff Hlen]]].
  assert (Hlabel : classify (ObjectSeries os)
                   = Some (if length distinct <=? 10
                           then ft_categorical else ft_string)).
  { unfold classify. simpl. rewrite Hlen.
    now destruct (length distinct <=? 10). }
  exists distinct. eexists. repeat split; try eassumption; try apply Hiff.
  eexists. split; [reflexivity|].
  now apply field_types_In with (ObjectSeries os).
Qed.

(** C7.  An object column without rows is labelled ['categorical'], not
    ['string']. *)
Lemma zero_rows_is_categorical :
  identify_field_types (Some Examples.no_rows)
  = Some [("name"%string, ft_categorical)]
  /\ classify (ObjectSeries []) <> Some ft_string.
Proof. split; [reflexivity | discriminate]. Qed.

End FieldTypeFacts.

(** ** Outliers and the summary *)

Module StatisticsFacts.
Import Float64 Pandas DataAnalysisTool Float64Facts ModeFacts SelectFacts.
Import MissingValueFacts.

(** *** Zero and undefined results *)


Lemma fdiv_NaN_l (y : f64) : fdiv NaN y = NaN.
Proof. reflexivity. Qed.






(** *** The standard deviation *)

Section Std.

Variable sqrt_f : Q -> Q.





End Std.


(** *** Frames, masks and tables *)

Lemma lookup_In (name : string) (cols : list (string * Series))
  (s : Series) :
  lookup name cols = Some s -> In (name, s) cols.
Proof.
  induction cols as [|[n s0] cols IH]; simpl; [discriminate|].
  destruct (String.eqb n name) eqn:E.
  - intros [= ->]. apply String.eqb_eq in E. subst. now left.
  - intros H. right. now apply IH.
Qed.

Lemma to_float_length (s : Series) (xs : list f64) :
  to_float s = Some xs -> length xs = size s.
Proof.
  destruct s; simpl; intros [= <-]; [apply length_map | reflexivity].
Qed.




Lemma Forall2_map_right {A B : Type} (R : A -> B -> Prop) (f : A -> B)
  (l : list A) :
  (forall x, In x l -> R x (f x)) -> Forall2 R l (map f l).
Proof.
  induction l as [|a l IH]; intros H; simpl; constructor.
  - apply H. now left.
  - apply IH. intros x Hx. apply H. now right.
Qed.

Lemma existsb_filter_nil {A : Type} (p : A -> bool) (l : list A) :
  existsb p l = false <-> filter p l = [].
Proof.
  induction l as [|a l IH]; simpl; [tauto|].
  destruct (p a); simpl; [split; discriminate | assumption].
Qed.

Lemma occurrences_obj_In (x : string) (vs : list string) :
  In x vs -> 1 <= occurrences_obj x vs.
Proof.
  intros H. unfold occurrences_obj.
  assert (Hin : In x (filter (String.eqb x) vs))
    by (apply filter_In; split; [assumption | apply String.eqb_refl]).
  destruct (filter (String.eqb x) vs); [destruct Hin | simpl; lia].
Qed.

(** The head of [value_counts()] is a value of the column, with its number
    of occurrences, and no value of the column occurs more often. *)
Lemma most_frequent_spec (all vs : list string) (x : string) (n : nat) :
  most_frequent all vs = Some (x, n) ->
  In x vs
  /\ n = occurrences_obj x all
  /\ forall y, In y vs -> occurrences_obj y all <= n.
Proof.
  revert x n; induction vs as [|a vs IH]; intros x n; simpl;
    [discriminate|].
  destruct (most_frequent all vs) as [[y m]|] eqn:E.
  - destruct (IH y m eq_refl) as [Hy [Hm Hmax]].
    destruct (m <=? occurrences_obj a all) eqn:Ele; intros [= <- <-].
    + apply Nat.leb_le in Ele. split; [now left|]. split; [reflexivity|].
      intros z [<-|Hz]; [lia|]. specialize (Hmax z Hz). lia.
    + apply Nat.leb_gt in Ele. split; [now right|]. split; [assumption|].
      intros z [<-|Hz]; [lia | now apply Hmax].
  - intros [= <- <-]. split; [now left|]. split; [reflexivity|].
    intros z [<-|Hz]; [lia|].
    destruct vs; [destruct Hz | simpl in E].
    destruct (most_frequent all vs) as [[? ?]|];
      [destruct (_ <=? _)|]; discriminate.
Qed.


(** *** Scores that are zero or undefined *)


(** *** The claims *)

Section Claims.

Variable sqrt_f : Q -> Q.


(** C3, as amended.  A frame with columns gets a table.  When it has a
    numeric column the table has an entry for each numeric column, in
    order, with the count of values, mean, sample standard deviation,
    minimum, quartiles and maximum, and none for an object column.  When it
    has no numeric column every column has an entry, with the count of
    values, the number of distinct values, and a most frequent value with
    its number of occurrences. *)
Theorem describe_table (df : DataFrame) :
  columns df <> [] ->
  exists table,
    perform_statistical_analysis sqrt_f df = Ok table
    /\ (existsb (fun nc => is_number (snd nc)) (columns df) = true ->
        Forall2
          (fun nc entry =>
             fst entry = fst nc
             /\ exists xs,
                  to_float (snd nc) = Some xs
                  /\ snd entry
                     = Numeric {| n_count := count xs;
                                  n_mean := mean xs;
                                  n_std := std sqrt_f xs;
                                  n_min := min xs;
                                  n_25 := quantile (1 # 4) xs;
                                  n_50 := quantile (1 # 2) xs;
                                  n_75 := quantile (3 # 4) xs;
                                  n_max := max xs |})
          (filter (fun nc => is_number (snd nc)) (columns df)) table)
    /\ (existsb (fun nc => is_number (snd nc)) (columns df) = false ->
        Forall2
          (fun nc entry =>
             fst entry = fst nc
             /\ exists os summary,
                  snd nc = ObjectSeries os
                  /\ snd entry = Categorical summary
                  /\ o_count summary = length (dropna_obj os)
                  /\ o_unique summary = nunique_obj os
                  /\ forall top, o_top summary = Some top ->
                       In (Some top) os
                       /\ o_freq summary
                          = Some (occurrences_obj top (dropna_obj os))
                       /\ forall v, In (Some v) os ->
                            occurrences_obj v (dropna_obj os)
                            <= occurrences_obj top (dropna_obj os))
          (columns df) table).
Proof.
  intros Hcols.
  unfold perform_statistical_analysis, describe, select_dtypes_number.
  destruct (length (columns df) =? 0) eqn:E0.
  { apply Nat.eqb_eq, length_zero_iff_nil in E0. congruence. }
  set (numeric := filter (fun nc => is_number (snd nc)) (columns df)).
  destruct (length numeric =? 0) eqn:E.
  - apply Nat.eqb_eq, length_zero_iff_nil in E.
    eexists. split; [reflexivity|]. split.
    + intros Hex. apply existsb_filter_nil in E. congruence.
    + intros _. apply Forall2_map_right. intros [col s] Hin. simpl.
      split; [reflexivity|].
      destruct s as [zs|xs|os].
      1, 2: exfalso;
        assert (Hf : In (col, _) numeric)
          by (apply filter_In; split; [exact Hin | reflexivity]);
        rewrite E in Hf; destruct Hf.
      exists os, (describe_object os). simpl.
      repeat split.
      all: destruct (most_frequent (dropna_obj os) (dropna_obj os))
             as [[x n]|] eqn:Em; simpl in *; try discriminate.
      all: injection H as <-.
      all: destruct (most_frequent_spec _ _ _ _ Em) as [Hx [Hn Hmax]].
      * now apply FieldTypeFacts.dropna_obj_In.
      * now rewrite Hn.
      * intros v Hv. rewrite <- Hn. apply Hmax.
        now apply FieldTypeFacts.dropna_obj_In.
  - eexists. split; [reflexivity|]. split.
    + intros _. apply Forall2_map_right. intros [col s] Hin. simpl.
      split; [reflexivity|].
      apply filter_In in Hin as [_ Hnum]. simpl in Hnum.
      destruct s as [zs|xs|os]; try discriminate; eexists;
        split; reflexivity.
    + intros Hex. apply existsb_filter_nil in Hex.
      fold numeric in Hex. rewrite Hex in E. discriminate.
Qed.


End Claims.

(** C3.  A text column next to a numeric column: the table has an entry
    for the numeric column only. *)
Lemma describe_skips_text_column :
  exists table,
    perform_statistical_analysis Examples.sqrt_up Examples.people = Ok table
    /\ map fst table = ["age"%string].
Proof. eexists. split; reflexivity. Qed.


End StatisticsFacts.

(** ** The theorems at concrete inputs *)

Module Witnesses.
Import Float64 Pandas DataAnalysisTool Properties Examples.
Import MissingValueFacts StatisticsFacts.
Local Open Scope string_scope.

Lemma custom_fill_unparseable_witness :
  columns people
  = (object_columns [("name", [Some "ann"; None])]
     ++ ("age", Float64Series [Fin 30; NaN]) :: [])%list
  /\ is_number (Float64Series [Fin 30; NaN]) = true
  /\ decimal_float "abc" = None
  /\ handle_missing_values decimal_float (Some Custom) (Some "abc") people
     = ({| index := index people;
           columns :=
             (object_columns
                (map (fun c => (fst c, fillna_obj "abc" (snd c)))
                     [("name", [Some "ann"; None])])
              ++ ("age", Float64Series [Fin 30; NaN]) :: [])%list |},
        Some ValueError).
Proof.
  split; [reflexivity|]. split; [reflexivity|]. split; [reflexivity|].
  apply (custom_fill_unparseable decimal_float "abc" people
           [("name", [Some "ann"; None])] "age"
           (Float64Series [Fin 30; NaN]) []);
    reflexivity.
Defined.

Lemma mode_fill_all_null_raises_witness :
  In ("x", Float64Series [NaN; NaN]) (columns all_null)
  /\ to_float (Float64Series [NaN; NaN]) = Some [NaN; NaN]
  /\ forallb isnan [NaN; NaN] = true
  /\ snd (handle_missing_values decimal_float (Some Mode) None all_null)
     = Some IndexError.
Proof.
  assert (Hin : In ("x", Float64Series [NaN; NaN]) (columns all_null))
    by (left; reflexivity).
  split; [exact Hin|]. split; [reflexivity|]. split; [reflexivity|].
  apply (mode_fill_all_null_raises decimal_float None all_null "x"
           (Float64Series [NaN; NaN]) [NaN; NaN] Hin);
    reflexivity.
Defined.

(** [x] is filled with 1 before the loop raises at [a]; with [a] first,
    the loop raises there and [x] keeps its null. *)
Lemma mode_fill_smallest_mode_witness :
  (columns tied_then_null
   = [] ++ ("x", Float64Series [Fin 3; Fin 3; Fin 1; Fin 1; NaN])
        :: [("a", Float64Series [NaN; NaN; NaN; NaN; NaN])])%list
  /\ (columns null_then_tied
      = [("a", Float64Series [NaN; NaN; NaN; NaN; NaN])]
        ++ ("x", Float64Series [Fin 3; Fin 3; Fin 1; Fin 1; NaN]) :: [])%list
  /\ dropna [Fin 3; Fin 3; Fin 1; Fin 1; NaN] <> []
  /\ (exists v pre' post',
        columns (fst (handle_missing_values decimal_float (Some Mode) None
                        tied_then_null))
        = (pre' ++ ("x", fillna_numeric v
                           (Float64Series [Fin 3; Fin 3; Fin 1; Fin 1; NaN]))
                :: post')%list
        /\ fle v (Fin 1) = true)
  /\ handle_missing_values decimal_float (Some Mode) None tied_then_null
     = ({| index := index tied_then_null;
           columns :=
             [ ("x", Float64Series [Fin 3; Fin 3; Fin 1; Fin 1; Fin 1]);
               ("a", Float64Series [NaN; NaN; NaN; NaN; NaN]) ] |},
        Some IndexError)
  /\ snd (handle_missing_values decimal_float (Some Mode) None
            null_then_tied)
     = Some IndexError
  /\ exists pre',
       columns (fst (handle_missing_values decimal_float (Some Mode) None
                       null_then_tied))
       = (pre' ++ ("x", Float64Series [Fin 3; Fin 3; Fin 1; Fin 1; NaN])
               :: [])%list.
Proof.
  assert (Hvalue : dropna [Fin 3; Fin 3; Fin 1; Fin 1; NaN] <> [])
    by discriminate.
  assert (Hone : is_mode (Fin 1) [Fin 3; Fin 3; Fin 1; Fin 1; NaN]).
  { split; [simpl; auto|].
    intros w [<-|[<-|[<-|[<-|[]]]]]; vm_compute; lia. }
  split; [reflexivity|]. split; [reflexivity|]. split; [exact Hvalue|].
  split; [|split; [reflexivity|]].
  - destruct (mode_fill_smallest_mode decimal_float None tied_then_null
                [] [("a", Float64Series [NaN; NaN; NaN; NaN; NaN])] "x"
                (Float64Series [Fin 3; Fin 3; Fin 1; Fin 1; NaN])
                [Fin 3; Fin 3; Fin 1; Fin 1; NaN] eq_refl eq_refl Hvalue)
      as [_ [Hfill _]].
    destruct Hfill as [v [pre' [post' [Hc [_ [_ [_ Hleast]]]]]]];
      [intros c0 s0 ys []|].
    exists v, pre', post'. split; [exact Hc | now apply Hleast].
  - destruct (mode_fill_smallest_mode decimal_float None null_then_tied
                [("a", Float64Series [NaN; NaN; NaN; NaN; NaN])] [] "x"
                (Float64Series [Fin 3; Fin 3; Fin 1; Fin 1; NaN])
                [Fin 3; Fin 3; Fin 1; Fin 1; NaN] eq_refl eq_refl Hvalue)
      as [_ [_ Hstop]].
    destruct Hstop as [Hraised [pre' [Hc _]]].
    + exists "a", (Float64Series [NaN; NaN; NaN; NaN; NaN]),
             [NaN; NaN; NaN; NaN; NaN].
      split; [now left|]. split; reflexivity.
    + split; [exact Hraised|]. now exists pre'.
Defined.


Lemma describe_table_witness :
  columns people <> []
  /\ exists table,
       perform_statistical_analysis sqrt_up people = Ok table.
Proof.
  assert (H : columns people <> []) by discriminate.
  split; [exact H|].
  destruct (describe_table sqrt_up people H) as [table [Hrun _]].
  now exists table.
Defined.


End Witnesses.

(* ================================================================== *)
(** * Part III: further properties of the pipeline and its callers *)
(* ================================================================== *)

(** ** Equality of rows *)

Module RowFacts.
Import Float64 Pandas Float64Facts.

Lemma same_key_comm (x y : f64) : same_key x y = same_key y x.
Proof.
  destruct (same_key x y) eqn:E.
  - symmetry. now apply same_key_sym.
  - destruct (same_key y x) eqn:E'; [|reflexivity].
    apply same_key_sym in E'. congruence.
Qed.

Lemma cell_eqb_refl (a : cell) : cell_eqb a a = true.
Proof.
  destruct a as [z|x|[s|]]; simpl;
    auto using Z.eqb_refl, same_key_refl, String.eqb_refl.
Qed.

Lemma cell_eqb_comm (a b : cell) : cell_eqb a b = cell_eqb b a.
Proof.
  destruct a as [z|x|[s|]], b as [z'|x'|[s'|]]; simpl;
    auto using Z.eqb_sym, same_key_comm, String.eqb_sym.
Qed.

Lemma cell_eqb_trans (a b c : cell) :
  cell_eqb a b = true -> cell_eqb b c = true -> cell_eqb a c = true.
Proof.
  destruct a as [z|x|[s|]], b as [z'|x'|[s'|]], c as [z''|x''|[s''|]];
    simpl; try discriminate; auto.
  - rewrite !Z.eqb_eq. congruence.
  - apply same_key_trans.
  - rewrite !String.eqb_eq. congruence.
Qed.

Lemma row_eqb_refl (r : row) : row_eqb r r = true.
Proof.
  induction r as [|[a|] r IH]; simpl; [reflexivity | | assumption].
  now rewrite cell_eqb_refl.
Qed.

Lemma row_eqb_comm (r1 r2 : row) : row_eqb r1 r2 = row_eqb r2 r1.
Proof.
  revert r2; induction r1 as [|[a|] r1 IH]; intros [|[b|] r2]; simpl;
    try reflexivity; auto.
  now rewrite cell_eqb_comm, IH.
Qed.

Lemma row_eqb_trans (r1 r2 r3 : row) :
  row_eqb r1 r2 = true -> row_eqb r2 r3 = true -> row_eqb r1 r3 = true.
Proof.
  revert r2 r3; induction r1 as [|[a|] r1 IH];
    intros [|[b|] r2] [|[c|] r3]; simpl; try discriminate; auto.
  - intros H1 H2. apply andb_prop in H1 as [Hab H1].
    apply andb_prop in H2 as [Hbc H2].
    rewrite (cell_eqb_trans _ _ _ Hab Hbc). simpl. now apply IH with r2.
  - apply IH.
Qed.

End RowFacts.

(** ** What duplicate removal keeps *)

Module DuplicateMore.
Import Float64 Pandas DataAnalysisTool Properties MoreProperties.
Import SelectFacts DuplicateFacts RowFacts.

Lemma subseq_nil_l {A : Type} (l : list A) : subseq [] l.
Proof. induction l; constructor; assumption. Qed.

Lemma subseq_refl {A : Type} (l : list A) : subseq l l.
Proof. induction l; constructor; assumption. Qed.

Lemma subseq_trans {A : Type} (l1 l2 l3 : list A) :
  subseq l1 l2 -> subseq l2 l3 -> subseq l1 l3.
Proof.
  intros H12 H23. revert l1 H12.
  induction H23 as [|x l2 l3 H IH|x l2 l3 H IH]; intros l1 H12.
  - assumption.
  - constructor. now apply IH.
  - inversion H12; subst; constructor; now apply IH.
Qed.

Lemma subseq_length {A : Type} (l1 l2 : list A) :
  subseq l1 l2 -> length l1 <= length l2.
Proof. induction 1; simpl; lia. Qed.

Lemma subseq_In {A : Type} (l1 l2 : list A) (x : A) :
  subseq l1 l2 -> In x l1 -> In x l2.
Proof.
  induction 1; simpl; intros Hx; [assumption | right; auto|].
  destruct Hx as [->|Hx]; [now left | right; auto].
Qed.

Lemma select_subseq {A : Type} (mask : list bool) (l : list A) :
  subseq (select mask l) l.
Proof.
  revert l; induction mask as [|b mask IH]; intros [|x l]; simpl;
    try apply subseq_nil_l.
  destruct b; constructor; apply IH.
Qed.

Lemma existsb_false_In {A : Type} (f : A -> bool) (l : list A) (x : A) :
  existsb f l = false -> In x l -> f x = false.
Proof.
  intros H Hx. destruct (f x) eqn:E; [|reflexivity].
  assert (existsb f l = true) by (apply existsb_exists; eauto).
  congruence.
Qed.

Lemma existsb_false_Forall {A : Type} (f : A -> bool) (l : list A) :
  Forall (fun x => f x = false) l -> existsb f l = false.
Proof.
  induction 1 as [|x l Hx _ IH]; simpl; [reflexivity|].
  now rewrite Hx, IH.
Qed.

Lemma ForallOrdPairs_impl {A : Type} (R R' : A -> A -> Prop) (l : list A) :
  (forall a b, R a b -> R' a b) ->
  ForallOrdPairs R l -> ForallOrdPairs R' l.
Proof.
  intros H. induction 1 as [|a l Ha _ IH]; constructor; [|assumption].
  eapply Forall_impl; [|exact Ha]. apply H.
Qed.

Lemma subseq_Forall {A : Type} (P : A -> Prop) (l1 l2 : list A) :
  subseq l1 l2 -> Forall P l2 -> Forall P l1.
Proof.
  intros Hs Hall. apply Forall_forall. intros x Hx.
  rewrite Forall_forall in Hall. apply Hall.
  now apply subseq_In with l1.
Qed.

Lemma subseq_ForallOrdPairs {A : Type} (R : A -> A -> Prop)
  (l1 l2 : list A) :
  subseq l1 l2 -> ForallOrdPairs R l2 -> ForallOrdPairs R l1.
Proof.
  induction 1 as [|x l1 l2 H IH|x l1 l2 H IH]; intros Hall.
  - constructor.
  - inversion Hall; subst. auto.
  - inversion Hall; subst. constructor; [|auto].
    now apply subseq_Forall with l2.
Qed.

(** *** The rows that stay are pairwise different *)

Lemma kept_first_distinct (rs seen : list row) :
  ForallOrdPairs (fun a b => row_eqb b a = false)
    (select (map negb (seen_before seen rs)) rs)
  /\ Forall (fun k => existsb (row_eqb k) seen = false)
       (select (map negb (seen_before seen rs)) rs).
Proof.
  revert seen; induction rs as [|r rs IH]; intros seen; simpl.
  - split; constructor.
  - destruct (IH (r :: seen)) as [Hpairs Hseen].
    assert (Hold : Forall (fun k => existsb (row_eqb k) seen = false)
                     (select (map negb (seen_before (r :: seen) rs)) rs)).
    { eapply Forall_impl; [|exact Hseen]. simpl. intros k Hk.
      now apply orb_false_elim in Hk. }
    destruct (existsb (row_eqb r) seen) eqn:E; simpl.
    + split; assumption.
    + split; constructor; try assumption.
      eapply Forall_impl; [|exact Hseen]. simpl. intros k Hk.
      now apply orb_false_elim in Hk.
Qed.

Lemma kept_last_distinct (rs : list row) :
  ForallOrdPairs (fun a b => row_eqb a b = false)
    (select (map negb (seen_after rs)) rs).
Proof.
  induction rs as [|r rs IH]; simpl; [constructor|].
  destruct (existsb (row_eqb r) rs) eqn:E; simpl; [assumption|].
  constructor; [|assumption].
  apply Forall_forall. intros k Hk.
  apply (existsb_false_In _ rs); [assumption|].
  now apply select_incl in Hk.
Qed.

Lemma rows_drop_duplicates (keep : keep_arg) (df : DataFrame) :
  empty df = false ->
  rows (drop_duplicates keep df)
  = select (map negb (duplicated keep df)) (rows df)
  /\ index (drop_duplicates keep df)
     = select (map negb (duplicated keep df)) (index df).
Proof.
  intros E. unfold drop_duplicates. rewrite E.
  split; [|reflexivity].
  apply rows_getitem_mask. now rewrite length_map, duplicated_length.
Qed.

Lemma empty_rows (df : DataFrame) :
  empty df = true -> columns df <> [] -> rows df = [].
Proof.
  unfold empty, rows. intros E Hcols.
  apply orb_prop in E as [E|E]; apply Nat.eqb_eq in E.
  - now rewrite E.
  - apply length_zero_iff_nil in E. congruence.
Qed.

Lemma strategy_keep (strat : strategy) (df : DataFrame) :
  exists keep,
    keep <> keep_False
    /\ remove_duplicates (Some strat) df = drop_duplicates keep df.
Proof.
  destruct strat; [exists keep_first | exists keep_last | exists keep_first];
    split; (discriminate || reflexivity).
Qed.

Lemma drop_duplicates_distinct (keep : keep_arg) (df : DataFrame) :
  keep <> keep_False ->
  columns df <> [] ->
  distinct_rows (rows (drop_duplicates keep df)).
Proof.
  intros Hk Hcols. destruct (empty df) eqn:E.
  - unfold drop_duplicates. rewrite E, (empty_rows _ E Hcols). constructor.
  - destruct (rows_drop_duplicates keep _ E) as [-> _].
    unfold distinct_rows, duplicated. destruct keep; [| |congruence].
    + eapply ForallOrdPairs_impl; [|apply kept_first_distinct].
      intros a b H. now rewrite row_eqb_comm.
    + apply kept_last_distinct.
Qed.

(** X1.  Once a strategy has been chosen, [remove_duplicates] leaves a
    frame in which no two rows are equal. *)
Theorem remove_duplicates_distinct (strat : strategy) (df : DataFrame) :
  columns df <> [] ->
  distinct_rows (rows (remove_duplicates (Some strat) df)).
Proof.
  intros Hcols. destruct (strategy_keep strat df) as [keep [Hk ->]].
  now apply drop_duplicates_distinct.
Qed.

(** *** Every row stays or has an equal row that stays *)

Lemma kept_first_covers (rs seen : list row) (r : row) :
  In r rs ->
  (exists r', In r' (select (map negb (seen_before seen rs)) rs)
              /\ row_eqb r r' = true)
  \/ (exists r', In r' seen /\ row_eqb r r' = true).
Proof.
  revert seen; induction rs as [|r0 rs IH]; intros seen; [intros []|].
  intros Hin. simpl.
  destruct (existsb (row_eqb r0) seen) eqn:E; simpl.
  - apply existsb_exists in E as [x [Hx Hr0x]].
    destruct Hin as [<-|Hin]; [right; eauto|].
    destruct (IH (r0 :: seen) Hin) as [Hkept|[r' [[<-|Hr'] Heq]]];
      [now left | right | right; eauto].
    exists x. split; [assumption|]. now apply row_eqb_trans with r0.
  - destruct Hin as [<-|Hin].
    + left. exists r0. split; [now left | apply row_eqb_refl].
    + destruct (IH (r0 :: seen) Hin) as [[r' [Hr' Heq]]|[r' [[<-|Hr'] Heq]]].
      * left. exists r'. split; [now right | assumption].
      * left. exists r0. split; [now left | assumption].
      * right. eauto.
Qed.

Lemma kept_last_covers (rs : list row) (r : row) :
  In r rs ->
  exists r', In r' (select (map negb (seen_after rs)) rs)
             /\ row_eqb r r' = true.
Proof.
  revert r; induction rs as [|r0 rs IH]; intros r; [intros []|].
  intros Hin. simpl.
  assert (Hrest : forall x, In x rs ->
            exists r', In r' (select (negb (existsb (row_eqb r0) rs)
                                        :: map negb (seen_after rs))
                                     (r0 :: rs))
                       /\ row_eqb x r' = true).
  { intros x Hx. destruct (IH x Hx) as [r' [Hr' Heq]].
    exists r'. split; [|assumption].
    simpl. destruct (negb _); [now right | assumption]. }
  destruct Hin as [<-|Hin]; [|now apply Hrest].
  destruct (existsb (row_eqb r0) rs) eqn:E.
  - pose proof E as E0. apply existsb_exists in E0 as [x [Hx Hr0x]].
    destruct (Hrest x Hx) as [r' [Hr' Heq]]. simpl in Hr'.
    exists r'. split; [assumption|]. now apply row_eqb_trans with x.
  - exists r0. split; [now left | apply row_eqb_refl].
Qed.

(** X2.  [remove_duplicates] only leaves rows out: the index and the rows
    of the result are those of the frame, in their order, with some
    missing, and the columns keep their names.  No row is lost without a
    copy: every row of the frame is equal to a row of the result. *)
Theorem remove_duplicates_keeps_a_copy (strat : option strategy)
  (df : DataFrame) :
  subseq (index (remove_duplicates strat df)) (index df)
  /\ subseq (rows (remove_duplicates strat df)) (rows df)
  /\ map fst (columns (remove_duplicates strat df)) = map fst (columns df)
  /\ forall r, In r (rows df) ->
       exists r', In r' (rows (remove_duplicates strat df))
                  /\ row_eqb r r' = true.
Proof.
  assert (Hsame : subseq (index df) (index df)
                  /\ subseq (rows df) (rows df)
                  /\ map fst (columns df) = map fst (columns df)
                  /\ forall r, In r (rows df) ->
                       exists r', In r' (rows df) /\ row_eqb r r' = true).
  { repeat split; try apply subseq_refl.
    intros r Hr. exists r. split; [assumption | apply row_eqb_refl]. }
  destruct strat as [strat|]; [|exact Hsame].
  destruct (strategy_keep strat df) as [keep [Hk ->]].
  destruct (empty df) eqn:E.
  - unfold drop_duplicates. rewrite E. exact Hsame.
  - destruct (rows_drop_duplicates keep _ E) as [-> ->].
    split; [apply select_subseq|]. split; [apply select_subseq|]. split.
    + unfold drop_duplicates. rewrite E. simpl. rewrite map_map.
      now apply map_ext.
    + intros r Hr. unfold duplicated. destruct keep; [| |congruence].
      * destruct (kept_first_covers (rows df) [] r Hr)
          as [H|[r' [[] _]]]. exact H.
      * now apply kept_last_covers.
Qed.

(** *** A frame without duplicates *)

Lemma distinct_seen_before (rs seen : list row) :
  ForallOrdPairs (fun a b => row_eqb b a = false) rs ->
  Forall (fun r => existsb (row_eqb r) seen = false) rs ->
  forallb negb (seen_before seen rs) = true.
Proof.
  revert seen; induction rs as [|r rs IH]; intros seen Hpairs Hseen;
    simpl; [reflexivity|].
  inversion Hpairs as [|? ? Hr Hrest]; subst.
  inversion Hseen as [|? ? Hr0 Hseen']; subst.
  rewrite Hr0. simpl. apply IH; [assumption|].
  apply Forall_forall. intros k Hk. simpl.
  rewrite Forall_forall in Hr, Hseen'.
  now rewrite (Hr k Hk), (Hseen' k Hk).
Qed.

Lemma distinct_seen_after (rs : list row) :
  ForallOrdPairs (fun a b => row_eqb a b = false) rs ->
  forallb negb (seen_after rs) = true.
Proof.
  induction 1 as [|r rs Hr _ IH]; simpl; [reflexivity|].
  now rewrite (existsb_false_Forall _ _ Hr), IH.
Qed.

Lemma well_formed_bounded (df : DataFrame) : well_formed df -> bounded df.
Proof.
  unfold well_formed, bounded. apply Forall_impl. intros nc H. lia.
Qed.

(** X3.  A well-formed frame in which no two rows are equal is left as it
    is, whatever the strategy. *)
Theorem remove_duplicates_nothing_to_remove (strat : option strategy)
  (df : DataFrame) :
  well_formed df ->
  distinct_rows (rows df) ->
  remove_duplicates strat df = df.
Proof.
  intros Hwf Hdistinct. destruct strat as [strat|]; [|reflexivity].
  destruct (strategy_keep strat df) as [keep [Hk ->]].
  unfold drop_duplicates. destruct (empty df); [reflexivity|].
  apply getitem_mask_all_true.
  - apply forallb_negb_map. unfold duplicated.
    destruct keep; [| |congruence].
    + apply distinct_seen_before; [|apply Forall_forall; reflexivity].
      eapply ForallOrdPairs_impl; [|exact Hdistinct].
      intros a b H. now rewrite row_eqb_comm.
    + now apply distinct_seen_after.
  - now rewrite length_map, duplicated_length.
  - now apply well_formed_bounded.
Qed.

End DuplicateMore.

(** ** More on filling missing values *)

Module MissingValueMore.
Import Float64 Pandas DataAnalysisTool Properties MoreProperties.
Import Float64Facts ModeFacts MissingValueFacts.

(** *** Filling twice *)

Lemma for_each_column_again (body : Series -> result Series)
  (cols : list (string * Series)) :
  (forall s s', body s = Ok s' -> body s' = Ok s') ->
  for_each_column body (fst (for_each_column body cols))
  = for_each_column body cols.
Proof.
  intros Hbody. induction cols as [|[col s] cols IH]; [reflexivity|].
  destruct (body s) as [s'|e] eqn:E.
  - rewrite (for_each_column_cons_ok _ _ _ _ _ E). cbn [fst].
    rewrite (for_each_column_cons_ok _ _ _ _ _ (Hbody _ _ E)).
    now rewrite IH.
  - simpl. rewrite E. simpl. now rewrite E.
Qed.

Lemma update_columns_again (body : Series -> result Series)
  (df : DataFrame) :
  (forall s s', body s = Ok s' -> body s' = Ok s') ->
  update_columns body (fst (update_columns body df))
  = update_columns body df.
Proof.
  intros Hbody. rewrite !update_columns_eq. cbn [fst index columns].
  now rewrite for_each_column_again.
Qed.

Lemma fillna_NaN (xs : list f64) : fillna NaN xs = xs.
Proof.
  unfold fillna. rewrite <- (map_id xs) at 2. apply map_ext.
  now intros [q| | |].
Qed.

Lemma fillna_complete (v : f64) (xs : list f64) :
  (forall x, In x xs -> isnan x = false) -> fillna v xs = xs.
Proof.
  intros H. unfold fillna. rewrite <- (map_id xs) at 2.
  apply map_ext_in. intros x Hx. now rewrite (H x Hx).
Qed.

(** The statistic of the filled column fills nothing more. *)
Lemma fillna_statistic_again (stat : list f64 -> f64) (xs : list f64) :
  fillna (stat (fillna (stat xs) xs)) (fillna (stat xs) xs)
  = fillna (stat xs) xs.
Proof.
  destruct (isnan (stat xs)) eqn:E.
  - assert (H : stat xs = NaN) by (destruct (stat xs); now try discriminate).
    rewrite H, fillna_NaN, H. apply fillna_NaN.
  - apply fillna_complete. now apply fillna_no_null.
Qed.

Lemma fillna_fillna (v : f64) (xs : list f64) :
  fillna v (fillna v xs) = fillna v xs.
Proof.
  unfold fillna. rewrite map_map. apply map_ext. intros x.
  destruct (isnan x) eqn:E; [|now rewrite E]. now destruct (isnan v).
Qed.

Lemma fillna_obj_fillna_obj (v : string) (os : list (option string)) :
  fillna_obj v (fillna_obj v os) = fillna_obj v os.
Proof.
  unfold fillna_obj. rewrite map_map. apply map_ext. now intros [s|].
Qed.

Lemma fill_statistic_again (method : method_t) (s s' : Series) :
  fill_statistic method s = Ok s' -> fill_statistic method s' = Ok s'.
Proof.
  unfold fill_statistic. destruct s as [zs|xs|os]; simpl.
  - destruct method; try destruct (iloc0 (mode (map of_int zs))) eqn:E;
      intros [= <-]; simpl; now rewrite ?E.
  - destruct method.
    + intros [= <-]. simpl. now rewrite (fillna_statistic_again mean).
    + intros [= <-]. simpl. now rewrite (fillna_statistic_again median).
    + destruct (iloc0 (mode xs)) as [v|e] eqn:E; intros [= <-]. simpl.
      apply mode_iloc0 in E as [[Hv _] _].
      apply dropna_In in Hv as [Hin Hnan].
      assert (Hfull : forall y, In y (fillna v xs) -> isnan y = false)
        by now apply fillna_no_null.
      destruct (mode (fillna v xs)) as [|v' l] eqn:Em.
      * exfalso. apply (mode_nonempty (fillna v xs)); [|assumption].
        intros Hnil.
        assert (Hv' : In v (dropna (fillna v xs))).
        { apply dropna_In. split; [|assumption].
          apply in_map_iff. exists v. now rewrite Hnan. }
        rewrite Hnil in Hv'. destruct Hv'.
      * simpl. now rewrite fillna_complete.
    + intros [= <-]. reflexivity.
  - intros [= <-]. reflexivity.
Qed.

Section Again.

Variable py_float : string -> option f64.

Lemma fill_custom_again (fill_value : string) (s s' : Series) :
  fill_custom py_float fill_value s = Ok s' ->
  fill_custom py_float fill_value s' = Ok s'.
Proof.
  unfold fill_custom. destruct s as [zs|xs|os].
  - destruct (py_float fill_value); intros [= <-]. reflexivity.
  - destruct (py_float fill_value); intros [= <-]. simpl.
    now rewrite fillna_fillna.
  - intros [= <-]. now rewrite fillna_obj_fillna_obj.
Qed.

(** X4.  Running [handle_missing_values] again with the same answers on
    the frame it left changes nothing more, and ends the same way: with
    the same exception if the first run raised one. *)
Theorem handle_missing_values_again (method : option method_t)
  (fill_value : option string) (df : DataFrame) :
  handle_missing_values py_float method fill_value
    (fst (handle_missing_values py_float method fill_value df))
  = handle_missing_values py_float method fill_value df.
Proof.
  destruct method as [[| | |]|]; simpl; try reflexivity;
    try (apply update_columns_again; apply fill_statistic_again).
  destruct fill_value as [v|]; [|reflexivity].
  apply update_columns_again. apply fill_custom_again.
Qed.

(** *** A custom value that parses *)

Lemma nth_error_cells_float (xs : list f64) (k : nat) (c : cell) :
  nth_error (map FloatCell xs) k = Some c ->
  exists x, nth_error xs k = Some x /\ c = FloatCell x.
Proof.
  rewrite nth_error_map. destruct (nth_error xs k) as [x|]; simpl;
    [|discriminate].
  intros [= <-]. eauto.
Qed.

Lemma fill_custom_parsed (fill_value : string) (v : f64) (s : Series) :
  py_float fill_value = Some v ->
  isnan v = false ->
  exists s',
    fill_custom py_float fill_value s = Ok s'
    /\ dtype_of s' = dtype_of s
    /\ size s' = size s
    /\ complete s'
    /\ keeps_cells s s'.
Proof.
  intros Hparse Hv. unfold fill_custom. rewrite Hparse.
  destruct s as [zs|xs|os]; simpl; eexists; (split; [reflexivity|]);
    simpl.
  - repeat split; auto. now intros k c Hk _ _.
  - split; [reflexivity|]. split; [apply fillna_length|].
    split; [now apply fillna_no_null|].
    intros k c Hk Hc _. simpl in *.
    apply nth_error_cells_float in Hk as [x [Hk ->]].
    rewrite nth_error_map, (fillna_keeps v xs k x Hk); [reflexivity|].
    destruct x; try reflexivity. congruence.
  - split; [reflexivity|]. split; [apply length_map|]. split.
    + intros Hin. apply in_map_iff in Hin as [[s|] [H _]]; discriminate.
    + intros k c Hk _ Hc. simpl in *. unfold fillna_obj.
      rewrite nth_error_map in *. rewrite nth_error_map.
      destruct (nth_error os k) as [[s|]|]; simpl in *;
        try discriminate; [assumption|].
      injection Hk as <-. congruence.
Qed.

(** X5.  With a custom value that [float] accepts and that is not NaN,
    the ['custom'] branch raises nothing and leaves no null in any
    column, text or numeric.  Every cell that held a value keeps it, and
    the index, the names, the dtypes and the lengths of the columns are
    kept. *)
Theorem custom_fill_complete (fill_value : string) (v : f64)
  (df : DataFrame) :
  py_float fill_value = Some v ->
  isnan v = false ->
  exists df',
    handle_missing_values py_float (Some Custom) (Some fill_value) df
    = (df', None)
    /\ index df' = index df
    /\ Forall2
         (fun nc nc' =>
            fst nc' = fst nc
            /\ dtype_of (snd nc') = dtype_of (snd nc)
            /\ size (snd nc') = size (snd nc)
            /\ complete (snd nc')
            /\ keeps_cells (snd nc) (snd nc'))
         (columns df) (columns df').
Proof.
  intros Hparse Hv. simpl. rewrite update_columns_eq.
  destruct (for_each_column_total
              (fun s s' =>
                 dtype_of s' = dtype_of s /\ size s' = size s
                 /\ complete s' /\ keeps_cells s s')
              (fill_custom py_float fill_value) (columns df))
    as [Hnone Hall].
  - intros nc _. now apply fill_custom_parsed with v.
  - eexists. rewrite Hnone. split; [reflexivity|]. split; [reflexivity|].
    exact Hall.
Qed.

End Again.

End MissingValueMore.

(** ** More on the outlier report *)

Module OutlierMore.
Import Float64 Pandas DataAnalysisTool Properties MoreProperties.
Import Float64Facts SelectFacts DuplicateMore StatisticsFacts.

Lemma lookup_map (f : Series -> Series) (name : string)
  (cols : list (string * Series)) :
  lookup name (map (fun nc => (fst nc, f (snd nc))) cols)
  = option_map f (lookup name cols).
Proof.
  induction cols as [|[n s] cols IH]; simpl; [reflexivity|].
  now destruct (String.eqb n name).
Qed.

(** What a mask computed from the values selects satisfies the test. *)
Lemma select_by_test {A : Type} (g : A -> bool) (l : list A) (x : A) :
  In x (select (map g l) l) -> g x = true.
Proof.
  induction l as [|a l IH]; simpl; [tauto|].
  destruct (g a) eqn:E; simpl; [|assumption].
  intros [<-|Hx]; auto.
Qed.

Lemma fgt_fabs_NaN (y sd t : f64) : fgt (fabs (fdiv (fsub NaN y) sd)) t = false.
Proof. reflexivity. Qed.

Section Reports.

Variable sqrt_f : Q -> Q.

(** X7.  A row whose cell in the chosen column is null is never in the
    outlier report: the chosen column of the report is complete. *)
Theorem outliers_have_a_value (column : string) (threshold : Q)
  (df report : DataFrame) :
  detect_outliers sqrt_f (Some column) (Some threshold) df
  = Ok (Some report) ->
  exists s, lookup column (columns report) = Some s /\ complete s.
Proof.
  unfold detect_outliers.
  destruct (lookup column (columns df)) as [s|] eqn:Hlookup;
    [|discriminate].
  destruct (to_float s) as [xs|] eqn:Hfloat; [|discriminate].
  intros [= <-]. unfold getitem_mask. cbn [columns].
  rewrite lookup_map, Hlookup. simpl. eexists. split; [reflexivity|].
  destruct s as [zs|ys|os]; simpl in *; [exact I | | discriminate].
  injection Hfloat as <-. intros x Hx.
  unfold outlier_mask, z_scores in Hx. rewrite map_map in Hx.
  apply select_by_test in Hx.
  destruct x; try reflexivity. discriminate.
Qed.

Lemma fgt_threshold (x : f64) (t1 t2 : Q) :
  (t1 <= t2)%Q -> fgt x (Fin t2) = true -> fgt x (Fin t1) = true.
Proof.
  intros Ht. destruct x as [q| | |]; try (cbn; congruence).
  unfold fgt, fcmp.
  destruct (q ?= t2)%Q eqn:E2; try discriminate. intros _.
  apply Qgt_alt in E2.
  assert (E1 : (q ?= t1)%Q = Gt) by (apply Qgt_alt; lra).
  now rewrite E1.
Qed.

Lemma select_smaller_mask {A : Type} (g1 g2 : f64 -> bool)
  (zs : list f64) (l : list A) :
  (forall z, g2 z = true -> g1 z = true) ->
  subseq (select (map g2 zs) l) (select (map g1 zs) l).
Proof.
  intros H. revert l; induction zs as [|z zs IH]; intros [|x l]; simpl;
    try apply subseq_nil.
  destruct (g2 z) eqn:E2.
  - rewrite (H z E2). apply subseq_keep, IH.
  - destruct (g1 z); [apply subseq_skip|]; apply IH.
Qed.

(** X8.  Raising the threshold can only shrink the report: the rows
    flagged at the higher threshold are, in order, rows flagged at the
    lower one. *)
Theorem higher_threshold_fewer_outliers (column : string) (t1 t2 : Q)
  (df r1 r2 : DataFrame) :
  (t1 <= t2)%Q ->
  detect_outliers sqrt_f (Some column) (Some t1) df = Ok (Some r1) ->
  detect_outliers sqrt_f (Some column) (Some t2) df = Ok (Some r2) ->
  subseq (index r2) (index r1)
  /\ Forall2 (fun nc2 nc1 =>
                fst nc2 = fst nc1
                /\ subseq (cells (snd nc2)) (cells (snd nc1)))
       (columns r2) (columns r1).
Proof.
  intros Ht. unfold detect_outliers.
  destruct (lookup column (columns df)) as [s|]; [|discriminate].
  destruct (to_float s) as [xs|]; [|discriminate].
  intros [= <-] [= <-]. unfold getitem_mask, outlier_mask. cbn [index columns].
  assert (Hsub : forall (A : Type) (l : list A),
            subseq
              (select (map (fun z => fgt (fabs z) (Fin t2))
                           (z_scores sqrt_f xs)) l)
              (select (map (fun z => fgt (fabs z) (Fin t1))
                           (z_scores sqrt_f xs)) l)).
  { intros A l. apply select_smaller_mask. intros z.
    now apply fgt_threshold. }
  split; [apply Hsub|].
  induction (columns df) as [|[n c] cols IH]; simpl; constructor;
    [|assumption].
  simpl. split; [reflexivity|]. rewrite !cells_select. apply Hsub.
Qed.

End Reports.

End OutlierMore.

(** ** The cleaning run as a whole *)

Module PipelineFacts.
Import Float64 Pandas DataAnalysisTool Shell Properties MoreProperties.
Import SelectFacts DuplicateFacts DuplicateMore MissingValueFacts.
Import StatisticsFacts.

(** *** The shape of a frame: index, names, dtypes, lengths *)

Definition same_shape (s s' : Series) : Prop :=
  dtype_of s' = dtype_of s /\ size s' = size s.

Lemma fillna_numeric_shape (v : f64) (s : Series) :
  same_shape s (fillna_numeric v s).
Proof.
  destruct s; split; simpl; auto using fillna_length.
Qed.

Lemma fill_statistic_shape (method : method_t) (s s' : Series) :
  fill_statistic method s = Ok s' -> same_shape s s'.
Proof.
  unfold fill_statistic. destruct (to_float s) as [xs|].
  - destruct method; try destruct (iloc0 (mode xs)); intros H;
      try discriminate; injection H as <-;
      try apply fillna_numeric_shape; now split.
  - intros [= <-]. now split.
Qed.

Lemma fill_custom_shape (py_float : string -> option f64)
  (fill_value : string) (s s' : Series) :
  fill_custom py_float fill_value s = Ok s' -> same_shape s s'.
Proof.
  unfold fill_custom. destruct s as [zs|xs|os];
    try destruct (py_float fill_value); intros H; try discriminate;
    injection H as <-; split; simpl; try reflexivity;
    try apply fillna_length.
  all: apply length_map.
Qed.

Lemma handle_missing_values_shape (py_float : string -> option f64)
  (method : option method_t) (fill_value : option string)
  (df : DataFrame) :
  index (fst (handle_missing_values py_float method fill_value df))
  = index df
  /\ Forall2 (fun nc nc' => fst nc' = fst nc /\ same_shape (snd nc) (snd nc'))
       (columns df)
       (columns (fst (handle_missing_values py_float method fill_value df))).
Proof.
  assert (Hid : forall l : list (string * Series),
             Forall2 (fun nc nc' => fst nc' = fst nc
                                    /\ same_shape (snd nc) (snd nc')) l l).
  { induction l; constructor; auto. repeat split. }
  assert (Hloop : forall body,
             (forall s s', body s = Ok s' -> same_shape s s') ->
             index (fst (update_columns body df)) = index df
             /\ Forall2 (fun nc nc' => fst nc' = fst nc
                                       /\ same_shape (snd nc) (snd nc'))
                  (columns df) (columns (fst (update_columns body df)))).
  { intros body Hbody. rewrite update_columns_eq. cbn [fst index columns].
    split; [reflexivity|].
    apply for_each_column_Forall2; [now split | assumption]. }
  destruct method as [[| | |]|]; simpl;
    try (apply Hloop; apply fill_statistic_shape);
    try (split; [reflexivity | apply Hid]).
  destruct fill_value as [v|]; [|split; [reflexivity | apply Hid]].
  apply Hloop. apply fill_custom_shape.
Qed.

Lemma Forall2_names (cols cols' : list (string * Series)) :
  Forall2 (fun nc nc' => fst nc' = fst nc /\ same_shape (snd nc) (snd nc'))
    cols cols' ->
  map fst cols' = map fst cols
  /\ map (fun nc => dtype_of (snd nc)) cols'
     = map (fun nc => dtype_of (snd nc)) cols
  /\ forall n, Forall (fun nc => size (snd nc) = n) cols ->
               Forall (fun nc => size (snd nc) = n) cols'.
Proof.
  induction 1 as [|nc nc' cols cols' [Hn [Hd Hs]] _ [IH1 [IH2 IH3]]];
    simpl.
  - repeat split. auto.
  - rewrite Hn, Hd, IH1, IH2. repeat split.
    intros n Hall. inversion Hall; subst. constructor; [congruence | auto].
Qed.

Lemma getitem_mask_shape (mask : list bool) (df : DataFrame) :
  map fst (columns (getitem_mask mask df)) = map fst (columns df)
  /\ map (fun nc => dtype_of (snd nc)) (columns (getitem_mask mask df))
     = map (fun nc => dtype_of (snd nc)) (columns df)
  /\ subseq (index (getitem_mask mask df)) (index df).
Proof.
  unfold getitem_mask; simpl. rewrite !map_map. split; [|split].
  - now apply map_ext.
  - apply map_ext. intros [n s]. now destruct s.
  - apply select_subseq.
Qed.

Lemma getitem_mask_well_formed (mask : list bool) (df : DataFrame) :
  well_formed df -> well_formed (getitem_mask mask df).
Proof.
  unfold well_formed, getitem_mask; simpl. intros Hwf.
  apply Forall_forall. intros nc Hnc.
  apply in_map_iff in Hnc as [[n s] [<- Hin]]. simpl.
  rewrite Forall_forall in Hwf. specialize (Hwf _ Hin). simpl in Hwf.
  rewrite size_select_series. apply select_length.
  now rewrite cells_length.
Qed.

(** [remove_duplicates] returns the frame or a selection of its rows. *)
Lemma remove_duplicates_selects (strat : option strategy) (df : DataFrame) :
  remove_duplicates strat df = df
  \/ exists mask, remove_duplicates strat df = getitem_mask mask df.
Proof.
  destruct strat as [[| |]|]; simpl; unfold drop_duplicates;
    destruct (empty df); eauto.
Qed.

Lemma detect_outliers_selects (sqrt_f : Q -> Q) (column : option string)
  (threshold : option Q) (df report : DataFrame) :
  well_formed df ->
  detect_outliers sqrt_f column threshold df = Ok (Some report) ->
  exists mask,
    length mask = length (index df) /\ report = getitem_mask mask df.
Proof.
  intros Hwf. unfold detect_outliers.
  destruct column as [name|]; [|discriminate].
  destruct (lookup name (columns df)) as [s|] eqn:Hlookup; [|discriminate].
  destruct (to_float s) as [xs|] eqn:Hfloat; [|discriminate].
  destruct threshold as [t|]; [|discriminate].
  intros [= <-]. eexists. split; [|reflexivity].
  unfold outlier_mask, z_scores. rewrite !length_map.
  rewrite (to_float_length _ _ Hfloat).
  apply lookup_In in Hlookup.
  unfold well_formed in Hwf. rewrite Forall_forall in Hwf.
  apply (Hwf _ Hlookup).
Qed.

Section Cleaning.

Variable py_float : string -> option f64.
Variable sqrt_f : Q -> Q.

(** The frame a run leaves, when the fill stage raised and when not. *)
Lemma clean_data_after (a : answers) (df : DataFrame) :
  let filled :=
    handle_missing_values py_float (method a) (fill_value a) df in
  data_after (clean_data py_float sqrt_f a (Some df))
  = Some (match snd filled with
          | Some _ => fst filled
          | None => remove_duplicates (strat a) (fst filled)
          end).
Proof.
  cbv zeta. unfold clean_data.
  destruct (handle_missing_values py_float (method a) (fill_value a) df)
    as [filled [e|]]; [reflexivity|]. simpl.
  now destruct (detect_outliers sqrt_f (column a) (threshold a) _).
Qed.

(** X9.  Whatever the answers and whether or not an exception escapes, a
    cleaning run leaves a well-formed frame whose rows are rows of the
    frame it started from, in their order, under the same column names
    and dtypes: it adds no row and no column, and renames and retypes
    none. *)
Theorem clean_data_keeps_shape (a : answers) (df : DataFrame) :
  well_formed df ->
  exists df',
    data_after (clean_data py_float sqrt_f a (Some df)) = Some df'
    /\ well_formed df'
    /\ subseq (index df') (index df)
    /\ map fst (columns df') = map fst (columns df)
    /\ map (fun nc => dtype_of (snd nc)) (columns df')
       = map (fun nc => dtype_of (snd nc)) (columns df).
Proof.
  intros Hwf. rewrite clean_data_after. cbv zeta.
  destruct (handle_missing_values_shape py_float (method a) (fill_value a)
              df) as [Hindex Hcols].
  set (filled := fst (handle_missing_values py_float (method a)
                        (fill_value a) df)) in *.
  destruct (Forall2_names _ _ Hcols) as [Hnames [Hdtypes Hsizes]].
  assert (Hfilled : well_formed filled).
  { unfold well_formed. rewrite Hindex. now apply Hsizes. }
  assert (Hsame : well_formed filled
                  /\ subseq (index filled) (index df)
                  /\ map fst (columns filled) = map fst (columns df)
                  /\ map (fun nc => dtype_of (snd nc)) (columns filled)
                     = map (fun nc => dtype_of (snd nc)) (columns df)).
  { rewrite Hindex. repeat split; auto using subseq_refl. }
  eexists. split; [reflexivity|].
  destruct (snd (handle_missing_values py_float (method a) (fill_value a)
                   df)); [exact Hsame|].
  destruct (remove_duplicates_selects (strat a) filled)
    as [->|[mask ->]]; [exact Hsame|].
  destruct (getitem_mask_shape mask filled) as [Hn [Hd Hi]].
  split; [now apply getitem_mask_well_formed|].
  split; [rewrite <- Hindex; exact Hi|].
  split; congruence.
Qed.

(** X10.  When the fill stage raises, the cleaning run ends there: the
    exception escapes, no outlier is printed, and the duplicate stage has
    not run, so the frame still has every row it had. *)
Theorem clean_data_stops_at_fill_error (a : answers) (df : DataFrame)
  (e : exn) :
  snd (handle_missing_values py_float (method a) (fill_value a) df)
  = Some e ->
  raised (clean_data py_float sqrt_f a (Some df)) = Some e
  /\ outliers (clean_data py_float sqrt_f a (Some df)) = None
  /\ exists df',
       data_after (clean_data py_float sqrt_f a (Some df)) = Some df'
       /\ index df' = index df
       /\ rows df' = rows (fst (handle_missing_values py_float (method a)
                                  (fill_value a) df)).
Proof.
  intros Hraise.
  destruct (handle_missing_values_shape py_float (method a) (fill_value a)
              df) as [Hindex _].
  unfold clean_data.
  destruct (handle_missing_values py_float (method a) (fill_value a) df)
    as [filled [e'|]]; simpl in *; [|discriminate].
  injection Hraise as ->. repeat split. eauto.
Qed.

(** X11.  With a strategy chosen, the outliers a cleaning run prints are
    rows of the frame it leaves, in their order, and no two of them are
    equal. *)
Theorem clean_data_outliers_distinct (a : answers) (st : strategy)
  (df report : DataFrame) :
  well_formed df ->
  columns df <> [] ->
  strat a = Some st ->
  outliers (clean_data py_float sqrt_f a (Some df)) = Some report ->
  exists df',
    data_after (clean_data py_float sqrt_f a (Some df)) = Some df'
    /\ subseq (index report) (index df')
    /\ subseq (rows report) (rows df')
    /\ distinct_rows (rows report).
Proof.
  intros Hwf Hcols Hstrat.
  destruct (handle_missing_values_shape py_float (method a) (fill_value a)
              df) as [Hindex Hshape].
  destruct (Forall2_names _ _ Hshape) as [Hnames [_ Hsizes]].
  unfold clean_data.
  destruct (handle_missing_values py_float (method a) (fill_value a) df)
    as [filled [e|]]; simpl in *; [discriminate|].
  assert (Hfilled : well_formed filled).
  { unfold well_formed. rewrite Hindex. now apply Hsizes. }
  assert (Hfcols : columns filled <> []).
  { intros E. rewrite E in Hnames. simpl in Hnames.
    symmetry in Hnames. apply map_eq_nil in Hnames. congruence. }
  rewrite Hstrat.
  set (deduplicated := remove_duplicates (Some st) filled).
  assert (Hdwf : well_formed deduplicated).
  { unfold deduplicated.
    destruct (remove_duplicates_selects (Some st) filled)
      as [->|[mask ->]];
      [assumption | now apply getitem_mask_well_formed]. }
  assert (Hdistinct : distinct_rows (rows deduplicated)).
  { unfold deduplicated.
    destruct (strategy_keep st filled) as [keep [Hk ->]].
    now apply drop_duplicates_distinct. }
  destruct (detect_outliers sqrt_f (column a) (threshold a) deduplicated)
    as [printed|e] eqn:Hdetect; simpl; [|discriminate].
  intros ->.
  destruct (detect_outliers_selects _ _ _ _ _ Hdwf Hdetect)
    as [mask [Hlen ->]].
  eexists. split; [reflexivity|].
  rewrite (rows_getitem_mask _ _ Hlen).
  split; [apply select_subseq|]. split; [apply select_subseq|].
  apply subseq_ForallOrdPairs with (rows deduplicated);
    [apply select_subseq | assumption].
Qed.

End Cleaning.

End PipelineFacts.

(** ** Loading and exporting *)

Module ShellFacts.
Import Float64 Pandas DataAnalysisTool Shell.
Local Open Scope string_scope.

Lemma append_length (a b : string) :
  String.length (a ++ b) = String.length a + String.length b.
Proof. induction a as [|c a IH]; simpl; [reflexivity | now rewrite IH]. Qed.

Lemma substring_all (s : string) : substring 0 (String.length s) s = s.
Proof. induction s as [|c s IH]; simpl; [reflexivity | now rewrite IH]. Qed.

Lemma substring_skip (a b : string) (m : nat) :
  substring (String.length a) m (a ++ b) = substring 0 m b.
Proof. induction a as [|c a IH]; simpl; [reflexivity | exact IH]. Qed.

Lemma substring_split (k : nat) (s : string) :
  k <= String.length s ->
  s = substring 0 k s ++ substring k (String.length s - k) s.
Proof.
  revert s; induction k as [|k IH]; intros s Hk.
  - rewrite Nat.sub_0_r, substring_all. now destruct s.
  - destruct s as [|c s]; simpl in *; [lia|].
    f_equal. apply IH. lia.
Qed.

(** [endswith] holds exactly of the strings that are a stem followed by
    the suffix. *)
Lemma endswith_spec (s suffix : string) :
  endswith s suffix = true <-> exists stem, s = stem ++ suffix.
Proof.
  unfold endswith. split.
  - remember (String.length suffix) as m eqn:Hm.
    intros H. apply andb_prop in H as [Hlen Heq].
    apply Nat.leb_le in Hlen. apply String.eqb_eq in Heq.
    exists (substring 0 (String.length s - m) s).
    rewrite <- Heq.
    replace (substring (String.length s - m) m s)
      with (substring (String.length s - m)
              (String.length s - (String.length s - m)) s)
      by (f_equal; lia).
    apply substring_split. lia.
  - intros [stem ->]. rewrite append_length.
    replace (String.length stem + String.length suffix
             - String.length suffix) with (String.length stem) by lia.
    rewrite substring_skip, substring_all, String.eqb_refl.
    rewrite andb_true_r. apply Nat.leb_le. lia.
Qed.

Definition extension (format : file_format) : string :=
  match format with
  | csv => ".csv"
  | xlsx => ".xlsx"
  | json => ".json"
  end.

(** X13.  Given a path that ends neither in [.csv] nor in [.xlsx] (in
    lower case), [export_data] writes nothing and still reports that the
    data was exported. *)
Theorem export_data_without_extension
  (write : file_format -> string -> list (string * Series) -> option string)
  (file_path : string) (df : DataFrame) :
  file_path <> "" ->
  (forall stem, file_path <> stem ++ ".csv") ->
  (forall stem, file_path <> stem ++ ".xlsx") ->
  export_data write file_path (Some df)
  = [information "Success" "Data exported successfully!"].
Proof.
  intros Hpath Hcsv Hxlsx. unfold export_data.
  apply String.eqb_neq in Hpath. rewrite Hpath.
  destruct (endswith file_path ".csv") eqn:E1.
  { apply endswith_spec in E1 as [stem E1]. now destruct (Hcsv stem). }
  destruct (endswith file_path ".xlsx") eqn:E2.
  { apply endswith_spec in E2 as [stem E2]. now destruct (Hxlsx stem). }
  reflexivity.
Qed.


Section Loading.

Variable read : file_format -> string -> outcome loaded.

Lemma head_length (n : nat) (df : DataFrame) :
  length (index (head n df)) <= n.
Proof. simpl. apply firstn_le_length. Qed.

(** X15.  A load either leaves the loaded data as it is or replaces it by
    the frame that the reader for the extension of the path returned.  An
    error is shown with the data as it was, or else for a frame with nested
    cells that has just replaced the data: the assignment comes before the
    call that raises.  The preview is the first rows, at most 10, of the
    data now loaded, and it is followed by the field types of that data or
    by the error.  Field types are printed only for the data now loaded,
    and never together with an error. *)
Theorem load_data_keeps_or_replaces (file_path : string)
  (data : option loaded) :
  let after := fst (load_data read file_path data) in
  let events := snd (load_data read file_path data) in
  (after = data
   \/ exists format l,
        read format file_path = Returned l
        /\ after = Some l
        /\ exists stem, file_path = stem ++ extension format)
  /\ (forall title text,
        In (critical title text) events ->
        after = data
        \/ exists printed message,
             after = Some (Nested printed message)
             /\ text = "Failed to load data: " ++ message)
  /\ (forall shown,
        In (setPlainText shown) events ->
        exists l,
          after = Some l
          /\ shown = head 10 (printed_frame l)
          /\ length (index shown) <= 10
          /\ match l with
             | Table df =>
                 events = [setPlainText shown;
                           print_field_types (field_types (columns df))]
             | Nested _ message =>
                 events = [setPlainText shown;
                           critical "Error"
                             ("Failed to load data: " ++ message)]
             end)
  /\ (forall table,
        In (print_field_types table) events ->
        exists df,
          after = Some (Table df)
          /\ table = field_types (columns df)
          /\ forall title text, ~ In (critical title text) events).
Proof.
  cbv zeta. unfold load_data.
  destruct (String.eqb file_path ""); [simpl; intuition|].
  assert (Hshow : forall l : loaded,
    let after := Some l in
    let events :=
      match l with
      | Table df => [setPlainText (head 10 df);
                     print_field_types (field_types (columns df))]
      | Nested printed message =>
          [setPlainText (head 10 printed);
           critical "Error" ("Failed to load data: " ++ message)]
      end in
    (forall title text,
        In (critical title text) events ->
        exists printed message,
          after = Some (Nested printed message)
          /\ text = "Failed to load data: " ++ message)
    /\ (forall shown,
          In (setPlainText shown) events ->
          exists l',
            after = Some l'
            /\ shown = head 10 (printed_frame l')
            /\ length (index shown) <= 10
            /\ match l' with
               | Table df =>
                   events = [setPlainText shown;
                             print_field_types (field_types (columns df))]
               | Nested _ message =>
                   events = [setPlainText shown;
                             critical "Error"
                               ("Failed to load data: " ++ message)]
               end)
    /\ (forall table,
          In (print_field_types table) events ->
          exists df,
            after = Some (Table df)
            /\ table = field_types (columns df)
            /\ forall title text, ~ In (critical title text) events)).
  { intros [df|printed message]; cbv zeta; (split; [|split]).
    - intros title text [C|[C|[]]]; discriminate.
    - intros shown [[= <-]|[C|[]]]; [|discriminate].
      exists (Table df). repeat split. apply head_length.
    - intros table [C|[[= <-]|[]]]; [discriminate|].
      exists df. repeat split.
      intros title text [C|[C|[]]]; discriminate.
    - intros title text [C|[[= _ <-]|[]]]; [discriminate|]. eauto.
    - intros shown [[= <-]|[C|[]]]; [|discriminate].
      exists (Nested printed message). repeat split. apply head_length.
    - intros table [C|[C|[]]]; discriminate. }
  assert (Hfail : forall (after : option loaded) (message : string),
    (forall shown,
        In (setPlainText shown) [critical "Error" message] ->
        exists l,
          after = Some l
          /\ shown = head 10 (printed_frame l)
          /\ length (index shown) <= 10
          /\ match l with
             | Table df =>
                 [critical "Error" message]
                 = [setPlainText shown;
                    print_field_types (field_types (columns df))]
             | Nested _ message' =>
                 [critical "Error" message]
                 = [setPlainText shown;
                    critical "Error" ("Failed to load data: " ++ message')]
             end)
    /\ (forall table,
          In (print_field_types table) [critical "Error" message] ->
          exists df,
            after = Some (Table df)
            /\ table = field_types (columns df)
            /\ forall title text,
                 ~ In (critical title text) [critical "Error" message])).
  { intros after message. split.
    - intros shown [C|[]]. discriminate.
    - intros table [C|[]]. discriminate. }
  assert (Hread : forall format,
            endswith file_path (extension format) = true ->
            match read format file_path with
            | Returned l =>
                exists format' l',
                  read format' file_path = Returned l'
                  /\ Some l = Some l'
                  /\ exists stem, file_path = stem ++ extension format'
            | Failed _ => True
            end).
  { intros format Hext. apply endswith_spec in Hext.
    destruct (read format file_path) eqn:E; [|exact I]. eauto. }
  assert (Hdone : forall l : loaded,
    match l with
    | Table df =>
        (Some (Table df),
         [setPlainText (head 10 df);
          print_field_types (field_types (columns df))])
    | Nested printed message =>
        (Some (Nested printed message),
         [setPlainText (head 10 printed);
          critical "Error" ("Failed to load data: " ++ message)])
    end
    = (Some l,
       match l with
       | Table df => [setPlainText (head 10 df);
                      print_field_types (field_types (columns df))]
       | Nested printed message =>
           [setPlainText (head 10 printed);
            critical "Error" ("Failed to load data: " ++ message)]
       end)) by (intros [?|? ?]; reflexivity).
  unfold read_by_extension.
  destruct (endswith file_path ".csv") eqn:E1;
    [pose proof (Hread csv E1) as H|
     destruct (endswith file_path ".xlsx") eqn:E2;
     [pose proof (Hread xlsx E2) as H|
      destruct (endswith file_path ".json") eqn:E3;
      [pose proof (Hread json E3) as H|]]].
  1, 2, 3:
    match goal with
    | |- context [read ?f ?p] =>
        destruct (read f p) as [l|message];
        [rewrite (Hdone l); cbn [fst snd];
         destruct (Hshow l) as [Hc [Hs Hp]];
         split; [right; exact H|];
         split; [intros title text Hin; right; exact (Hc title text Hin)|];
         split; [exact Hs | exact Hp]
        |cbn [fst snd];
         split; [now left|];
         split; [intros title text _; now left|];
         apply Hfail]
    end.
  destruct data as [l|].
  - rewrite (Hdone l). cbn [fst snd].
    destruct (Hshow l) as [Hc [Hs Hp]].
    split; [now left|]. split; [intros title text _; now left|].
    split; [exact Hs | exact Hp].
  - cbn [fst snd]. split; [now left|].
    split; [intros title text _; now left|]. apply Hfail.
Qed.

End Loading.

(** A JSON file of nested records: the preview is shown, then the error;
    the frame loaded before is gone, the nested one is in its place. *)
Lemma load_data_error_after_assignment :
  let nested :=
    {| index := [0]%Z;
       columns := [ ("tags", ObjectSeries [Some "['a', 'b']"]) ] |} in
  let read (format : file_format) (path : string) : outcome loaded :=
    match format with
    | json => Returned (Nested nested "unhashable type: 'list'")
    | _ => Failed "not read"
    end in
  load_data read "records.json" (Some (Table Examples.people))
  = (Some (Nested nested "unhashable type: 'list'"),
     [setPlainText nested;
      critical "Error" "Failed to load data: unhashable type: 'list'"]).
Proof. reflexivity. Qed.

End ShellFacts.

(** ** The further theorems at concrete inputs *)

Module MoreWitnesses.
Import Float64 Pandas DataAnalysisTool Shell Properties MoreProperties.
Import Examples.
Local Open Scope string_scope.

Lemma people_well_formed : well_formed people.
Proof. repeat constructor. Qed.

Lemma ages_well_formed : well_formed ages.
Proof. repeat constructor. Qed.

Lemma remove_duplicates_distinct_witness :
  columns letters <> []
  /\ distinct_rows (rows (remove_duplicates (Some all) letters)).
Proof.
  assert (H : columns letters <> []) by discriminate.
  split; [exact H|].
  apply (DuplicateMore.remove_duplicates_distinct all letters H).
Defined.

Lemma remove_duplicates_nothing_to_remove_witness :
  well_formed people
  /\ distinct_rows (rows people)
  /\ remove_duplicates (Some last) people = people.
Proof.
  assert (Hd : distinct_rows (rows people)) by (repeat constructor).
  split; [exact people_well_formed|]. split; [exact Hd|].
  apply (DuplicateMore.remove_duplicates_nothing_to_remove (Some last)
           people people_well_formed Hd).
Defined.

Lemma custom_fill_complete_witness :
  decimal_float "-12" = Some (Fin (-12))
  /\ isnan (Fin (-12)) = false
  /\ exists df',
       handle_missing_values decimal_float (Some Custom) (Some "-12") people
       = (df', None)
       /\ index df' = index people.
Proof.
  split; [reflexivity|]. split; [reflexivity|].
  destruct (MissingValueMore.custom_fill_complete decimal_float "-12"
              (Fin (-12)) people eq_refl eq_refl)
    as [df' [Hrun [Hindex _]]].
  exists df'. split; assumption.
Defined.

Definition outlier_1000 : DataFrame :=
  {| index := [3%Z];
     columns := [ ("age", Float64Series [Fin 1000]) ] |}.

Definition no_outlier : DataFrame :=
  {| index := [];
     columns := [ ("age", Float64Series []) ] |}.

Lemma outliers_have_a_value_witness :
  detect_outliers sqrt_up (Some "age") (Some 1%Q) ages
  = Ok (Some outlier_1000)
  /\ exists s, lookup "age" (columns outlier_1000) = Some s /\ complete s.
Proof.
  assert (H : detect_outliers sqrt_up (Some "age") (Some 1%Q) ages
              = Ok (Some outlier_1000)) by (vm_compute; reflexivity).
  split; [exact H|].
  apply (OutlierMore.outliers_have_a_value sqrt_up "age" 1%Q ages
           outlier_1000 H).
Defined.

Lemma higher_threshold_fewer_outliers_witness :
  (1 <= 2)%Q
  /\ detect_outliers sqrt_up (Some "age") (Some 1%Q) ages
     = Ok (Some outlier_1000)
  /\ detect_outliers sqrt_up (Some "age") (Some 2%Q) ages
     = Ok (Some no_outlier)
  /\ subseq (index no_outlier) (index outlier_1000).
Proof.
  assert (Hle : (1 <= 2)%Q) by discriminate.
  assert (H1 : detect_outliers sqrt_up (Some "age") (Some 1%Q) ages
               = Ok (Some outlier_1000)) by (vm_compute; reflexivity).
  assert (H2 : detect_outliers sqrt_up (Some "age") (Some 2%Q) ages
               = Ok (Some no_outlier)) by (vm_compute; reflexivity).
  split; [exact Hle|]. split; [exact H1|]. split; [exact H2|].
  apply (OutlierMore.higher_threshold_fewer_outliers sqrt_up "age" 1%Q 2%Q
           ages outlier_1000 no_outlier Hle H1 H2).
Defined.

(** Mean fill, keep the first copy, outliers of [age] beyond 1. *)
Definition a_run : answers :=
  {| method := Some Mean;
     fill_value := None;
     strat := Some first;
     column := Some "age";
     threshold := Some 1%Q |}.

(** The custom value "abc", then keep the first copy. *)
Definition a_bad_run : answers :=
  {| method := Some Custom;
     fill_value := Some "abc";
     strat := Some first;
     column := Some "age";
     threshold := Some 1%Q |}.

Lemma clean_data_keeps_shape_witness :
  well_formed ages
  /\ exists df',
       data_after (clean_data decimal_float sqrt_up a_run (Some ages))
       = Some df'
       /\ well_formed df'
       /\ subseq (index df') (index ages).
Proof.
  split; [exact ages_well_formed|].
  destruct (PipelineFacts.clean_data_keeps_shape decimal_float sqrt_up
              a_run ages ages_well_formed)
    as [df' [H1 [H2 [H3 _]]]].
  exists df'. repeat split; assumption.
Defined.

Lemma clean_data_stops_at_fill_error_witness :
  snd (handle_missing_values decimal_float (method a_bad_run)
         (fill_value a_bad_run) people) = Some ValueError
  /\ raised (clean_data decimal_float sqrt_up a_bad_run (Some people))
     = Some ValueError
  /\ outliers (clean_data decimal_float sqrt_up a_bad_run (Some people))
     = None.
Proof.
  assert (H : snd (handle_missing_values decimal_float (method a_bad_run)
                     (fill_value a_bad_run) people) = Some ValueError)
    by reflexivity.
  split; [exact H|].
  destruct (PipelineFacts.clean_data_stops_at_fill_error decimal_float
              sqrt_up a_bad_run people ValueError H) as [H1 [H2 _]].
  split; assumption.
Defined.

Lemma clean_data_outliers_distinct_witness :
  well_formed ages
  /\ columns ages <> []
  /\ strat a_run = Some first
  /\ outliers (clean_data decimal_float sqrt_up a_run (Some ages))
     = Some outlier_1000
  /\ distinct_rows (rows outlier_1000).
Proof.
  assert (Hcols : columns ages <> []) by discriminate.
  assert (Hout : outliers (clean_data decimal_float sqrt_up a_run
                             (Some ages)) = Some outlier_1000)
    by (vm_compute; reflexivity).
  destruct (PipelineFacts.clean_data_outliers_distinct decimal_float
              sqrt_up a_run first ages outlier_1000 ages_well_formed Hcols
              eq_refl Hout) as [df' [_ [_ [_ H]]]].
  split; [exact ages_well_formed|]. split; [exact Hcols|].
  split; [reflexivity|]. split; [exact Hout | exact H].
Defined.

Definition writes_all :
  file_format -> string -> list (string * Series) -> option string :=
  fun _ _ _ => None.

Lemma not_a_suffix (s suffix : string) :
  endswith s suffix = false -> forall stem, s <> stem ++ suffix.
Proof.
  intros H stem E.
  assert (endswith s suffix = true)
    by (apply ShellFacts.endswith_spec; eauto).
  congruence.
Qed.

Lemma export_data_without_extension_witness :
  "data.CSV" <> ""
  /\ (forall stem, "data.CSV" <> stem ++ ".csv")
  /\ (forall stem, "data.CSV" <> stem ++ ".xlsx")
  /\ export_data writes_all "data.CSV" (Some people)
     = [information "Success" "Data exported successfully!"].
Proof.
  assert (H0 : "data.CSV" <> "") by discriminate.
  assert (H1 : forall stem, "data.CSV" <> stem ++ ".csv")
    by (apply not_a_suffix; reflexivity).
  assert (H2 : forall stem, "data.CSV" <> stem ++ ".xlsx")
    by (apply not_a_suffix; reflexivity).
  split; [exact H0|]. split; [exact H1|]. split; [exact H2|].
  apply (ShellFacts.export_data_without_extension writes_all "data.CSV"
           people H0 H1 H2).
Defined.


End MoreWitnesses.
